(** * rtfm: the RFC index cache ([rtfm/rfccache.py])

    A shallow embedding of the cache module of rtfm: the two regular
    expressions of the module, the description parser of
    [RFCCacheEntry.__init__], the properties [filename], [path] and
    [rfc_download_url] of an entry, and the methods [load], [update],
    [get_indexed], [get_by_number], [update_missing_indexes] and [search]
    of [RFCIndex].

    The module is Python 2 code.  A [str] is a byte string and is modelled
    as [list ascii]; a [unicode] is a sequence of code points and is
    modelled as [list N].  Exceptions are values of [exn]; a method that
    mutates [self] is a function from the list of entries to an outcome
    and the list of entries it leaves behind. *)

From Stdlib Require Import ZArith NArith Ascii String List Lia Permutation Sorted.
From Stdlib Require Import DecimalString DecimalN.
From stdpp Require Import base option list gmap.
Import ListNotations.

Local Open Scope Z_scope.

(** ** Python strings *)

Definition bytes := list ascii.
Definition ustring := list N.

(** [B s] is the [str] literal [s]. *)
Definition B (s : string) : bytes := list_ascii_of_string s.

Definition code (c : ascii) : N := N_of_ascii c.

(** [u s] is the unicode literal of an ASCII string. *)
Definition u (s : string) : ustring := map code (list_ascii_of_string s).

Module Py.

(** Characters [str.strip] removes: the C locale's [isspace]. *)
Definition isspace (c : N) : bool :=
  ((9 <=? c) && (c <=? 13) || (c =? 32))%N.

(** Characters [unicode.strip] removes (CPython 2.7,
    [_PyUnicode_IsWhitespace]). *)
Definition uisspace (c : N) : bool :=
  ((9 <=? c) && (c <=? 13) || (28 <=? c) && (c <=? 32)
   || (c =? 133) || (c =? 160) || (c =? 5760) || (c =? 6158)
   || (8192 <=? c) && (c <=? 8202) || (c =? 8232) || (c =? 8233)
   || (c =? 8239) || (c =? 8287) || (c =? 12288))%N.

Definition isdigit (c : N) : bool := ((48 <=? c) && (c <=? 57))%N.
Definition isupper (c : N) : bool := ((65 <=? c) && (c <=? 90))%N.
Definition islower (c : N) : bool := ((97 <=? c) && (c <=? 122))%N.

Section Generic.
Context {C : Type}.

(** [s.lstrip(chars)], [s.rstrip(chars)], [s.strip(chars)], the set of
    characters given as a predicate. *)
Fixpoint lstrip (p : C → bool) (s : list C) : list C :=
  match s with
  | c :: s' => if p c then lstrip p s' else s
  | [] => []
  end.

Definition rstrip (p : C → bool) (s : list C) : list C :=
  rev (lstrip p (rev s)).

Definition strip (p : C → bool) (s : list C) : list C :=
  rstrip p (lstrip p s).

(** [s.split(sep)] for a one-character separator: every occurrence
    splits, empty fields are kept. *)
Fixpoint split (p : C → bool) (s : list C) : list (list C) :=
  match s with
  | [] => [[]]
  | c :: s' =>
      if p c then [] :: split p s'
      else match split p s' with
           | f :: fs => (c :: f) :: fs
           | [] => [[c]]
           end
  end.

(** [s.split(sep, 1)]: at most one split, at the first occurrence. *)
Fixpoint split1 (p : C → bool) (s : list C) : list (list C) :=
  match s with
  | [] => [[]]
  | c :: s' =>
      if p c then [[]; s']
      else match split1 p s' with
           | f :: fs => (c :: f) :: fs
           | [] => [[c]]
           end
  end.

(** [s.startswith(prefix)]. *)
Fixpoint startswith (eqb : C → C → bool) (s prefix : list C) : bool :=
  match prefix, s with
  | [], _ => true
  | p :: prefix', c :: s' => eqb c p && startswith eqb s' prefix'
  | _ :: _, [] => false
  end.

(** [sep.join(items)]. *)
Fixpoint join (sep : list C) (items : list (list C)) : list C :=
  match items with
  | [] => []
  | [x] => x
  | x :: rest => x ++ sep ++ join sep rest
  end.
End Generic.

(** [int(s)] for a string of decimal digits. *)
Definition digits_value (ds : list N) : Z :=
  fold_left (λ acc d, 10 * acc + Z.of_N (d - 48)) ds 0.

(** [str.lower()] in the C locale. *)
Definition lower_char (c : ascii) : ascii :=
  if isupper (code c) then ascii_of_N (code c + 32) else c.
Definition lower (s : bytes) : bytes := map lower_char s.

End Py.

(** ** Regular expressions

    The fragment of [re] the module uses, with the backtracking semantics
    of [re.match]: alternatives are tried greedy first, and the first
    complete match is returned with its groups. *)

Module Re.

Inductive re :=
| Bol                              (* ^ *)
| Eol                              (* $ *)
| Cls (p : N → bool)               (* one character of a class *)
| Cat (r1 r2 : re)
| Star (r : re)                    (* r*, greedy *)
| Grp (name : string) (r : re).    (* (r), (?P<name>r) *)

Definition Plus (r : re) : re := Cat r (Star r).
Definition Lit (c : ascii) : re := Cls (N.eqb (code c)).
(** [.] matches anything but a newline. *)
Definition Dot : re := Cls (λ c, negb (c =? 10)%N).
Definition Digit : re := Cls Py.isdigit.       (* \d *)
Definition Space : re := Cls Py.isspace.       (* \s *)
Definition Seq (rs : list re) : re :=
  match rs with
  | [] => Star (Cls (λ _, false))
  | r :: rs' => fold_left Cat rs' r
  end.

Section Match.
Context {C : Type} (code_of : C → N).

Definition groups := list (string * list C).

(** The subject is [whole]; [s] is what is left of it. *)
Fixpoint run (whole : list C) (r : re) (s : list C) (g : groups)
    (k : list C → groups → option groups) {struct r} : option groups :=
  match r with
  | Bol => if (length s =? length whole)%nat then k s g else None
  | Eol =>
      match s with
      | [] => k s g
      | [c] => if (code_of c =? 10)%N then k s g else None
      | _ => None
      end
  | Cls p =>
      match s with
      | c :: s' => if p (code_of c) then k s' g else None
      | [] => None
      end
  | Cat r1 r2 => run whole r1 s g (λ s' g', run whole r2 s' g' k)
  | Star r' =>
      (fix loop (fuel : nat) (s : list C) (g : groups) {struct fuel} :=
         match fuel with
         | O => k s g
         | S fuel' =>
             match run whole r' s g
                     (λ s' g', if (length s' <? length s)%nat
                               then loop fuel' s' g' else None) with
             | Some res => Some res
             | None => k s g
             end
         end) (length s) s g
  | Grp name r' =>
      run whole r' s g
        (λ s' g', k s' ((name, take (length s - length s') s) :: g'))
  end.

(** [re.match(r, s)]. *)
Definition rmatch (r : re) (s : list C) : option groups :=
  run s r s [] (λ _ g, Some g).

(** [m.group(name)]; [None] when the group did not take part. *)
Fixpoint group (g : groups) (name : string) : option (list C) :=
  match g with
  | [] => None
  | (n, v) :: g' => if String.eqb n name then Some v else group g' name
  end.
End Match.

End Re.

Import Re.

(** [RE_RFC_INDEX_LINE = re.compile('^(\d+)\s*(.+)$')] *)
Definition RE_RFC_INDEX_LINE : re :=
  Seq [Bol; Grp "1" (Plus Digit); Star Space; Grp "2" (Plus Dot); Eol].

(** [RE_RFC_DESCRIPTION = re.compile(
      '^(?P<title>.*\.) (?P<date>[A-Z][a-z]+ \d+)\. (?P<flags>\(.*\))$')] *)
Definition RE_RFC_DESCRIPTION : re :=
  Seq [Bol;
       Grp "title" (Seq [Star Dot; Lit "."]);
       Lit " ";
       Grp "date" (Seq [Cls Py.isupper; Plus (Cls Py.islower); Lit " "; Plus Digit]);
       Lit "."; Lit " ";
       Grp "flags" (Seq [Lit "("; Star Dot; Lit ")"]);
       Eol].

Definition CACHE_COMMIT_INTERVAL : nat := 50.

(** [RFC_SKIPPED = ( 8, 9, 51, 418, 530, 598 )] *)
Definition RFC_SKIPPED : list Z := [8; 9; 51; 418; 530; 598].

(** ** Exceptions *)

(** The messages of [RFCCacheError], one constructor per [raise] of the
    module, carrying the values the message is formatted from. *)
Inductive cache_error :=
| NoSuchFile                              (* 'Error loading {0}: no such file' *)
| UnsupportedFormat                       (* 'Unsupported file format.' *)
| ErrorLoading                            (* 'Error loading RFC cache {0}: {1}' *)
| ErrorDownloading (status : Z)           (* 'Error downloading {0}: status code {1}' *)
| ErrorWriting                            (* 'Error writing {0}: {1}' *)
| NothingLoaded                           (* 'No RFCs loaded to index' *)
| InvalidNumber                           (* 'Invalid RFC number: {0}' *)
| NotAvailable (number : Z)               (* 'RFC {0:04d} not available from web (obsolete?)' *)
| NotYetCached (number latest : Z)        (* 'Requested {0:04d}, latest cached RFC {1:04d}' *)
| NotFound (number : Z)                   (* 'RFC {0:04d} not found from local cache' *)
| ErrorReading (number : Z)               (* 'Error reading {0}: {1}' *)
| UnknownCharset (number : Z).            (* 'RFC {0}: unknonwn file charset' *)

Inductive exn :=
| RFCCacheError (e : cache_error)
| UnicodeDecodeError
| ValueError
| IOError
| OSError
| AttributeError
| TypeError
| IndexError
| RequestException
| IndexingError.

(** A computation that returns or raises. *)
Definition result (A : Type) : Type := exn + A.
Definition Return {A} (a : A) : result A := inr a.
Definition Raise {A} (e : exn) : result A := inl e.

(** ** [str.decode('utf-8')]

    The strict decoder of CPython 2.7 ([PyUnicode_DecodeUTF8Stateful]) on
    a build whose [unicode] holds code points: overlong forms, bytes that
    start nothing and truncated sequences raise; the encoded surrogates
    are let through, as that decoder does. *)

Module Utf8.

Definition cont (c : N) : bool := (N.land c 192 =? 128)%N.
Definition low6 (c : N) : N := N.land c 63.

Fixpoint decode_fuel (fuel : nat) (s : list N) : result ustring :=
  match fuel with
  | O => Return []
  | S fuel' =>
      match s with
      | [] => Return []
      | c0 :: s1 =>
          let next (cp : N) (rest : list N) : result ustring :=
            match decode_fuel fuel' rest with
            | inr out => Return (cp :: out)
            | inl e => Raise e
            end in
          if (c0 <? 128)%N then next c0 s1
          else if (c0 <? 194)%N then Raise UnicodeDecodeError
          else if (c0 <? 224)%N then
            match s1 with
            | c1 :: rest =>
                if cont c1
                then next (N.shiftl (N.land c0 31) 6 + low6 c1)%N rest
                else Raise UnicodeDecodeError
            | _ => Raise UnicodeDecodeError
            end
          else if (c0 <? 240)%N then
            match s1 with
            | c1 :: c2 :: rest =>
                if cont c1 && cont c2
                   && negb ((c0 =? 224)%N && (c1 <? 160)%N)
                then next (N.shiftl (N.land c0 15) 12
                           + N.shiftl (low6 c1) 6 + low6 c2)%N rest
                else Raise UnicodeDecodeError
            | _ => Raise UnicodeDecodeError
            end
          else if (c0 <? 245)%N then
            match s1 with
            | c1 :: c2 :: c3 :: rest =>
                if cont c1 && cont c2 && cont c3
                   && negb ((c0 =? 240)%N && (c1 <? 144)%N)
                   && negb ((c0 =? 244)%N && (143 <? c1)%N)
                then next (N.shiftl (N.land c0 7) 18
                           + N.shiftl (low6 c1) 12
                           + N.shiftl (low6 c2) 6 + low6 c3)%N rest
                else Raise UnicodeDecodeError
            | _ => Raise UnicodeDecodeError
            end
          else Raise UnicodeDecodeError
      end
  end.

Definition decode (s : bytes) : result ustring :=
  decode_fuel (length s) (map code s).

End Utf8.

(** ** [datetime.strptime(s, '%B %Y').date()]

    [_strptime] turns the format into the pattern
    [(?P<B>january|...|december)\s+(?P<Y>\d\d\d\d)], matched ignoring
    case against the whole string; the date is the first of the month. *)

Record Date := mkDate { year : Z; month : Z; day : Z }.

Module Strptime.

Definition month_names : list string :=
  ["january"; "february"; "march"; "april"; "may"; "june"; "july";
   "august"; "september"; "october"; "november"; "december"]%string.

Definition fold_case (c : N) : N :=
  if Py.isupper c then (c + 32)%N else c.

Definition ieq (c d : N) : bool := (fold_case c =? fold_case d)%N.

(** The month whose name starts [s], and what follows the name. *)
Fixpoint find_month (names : list string) (m : Z) (s : ustring)
    : option (Z * ustring) :=
  match names with
  | [] => None
  | name :: names' =>
      if Py.startswith ieq s (u name)
      then Some (m, drop (String.length name) s)
      else find_month names' (m + 1) s
  end.

Definition month_year (s : ustring) : result Date :=
  match find_month month_names 1 s with
  | None => Raise ValueError
  | Some (m, rest) =>
      match rest with
      | c :: _ =>
          if Py.isspace c then
            match Py.lstrip Py.isspace rest with
            | [d1; d2; d3; d4] =>
                if forallb Py.isdigit [d1; d2; d3; d4] then
                  let y := Py.digits_value [d1; d2; d3; d4] in
                  if 1 <=? y then Return (mkDate y m 1) else Raise ValueError
                else Raise ValueError
            | _ => Raise ValueError
            end
          else Raise ValueError
      | [] => Raise ValueError
      end
  end.

End Strptime.

(** ** [RFCCacheEntry] *)

Record RFCCacheEntry := mkEntry {
  number : Z;
  title : ustring;
  authors : list ustring;
  flags : gmap ustring ustring;
  description : ustring;
  date : option Date          (* the attribute is set only on a match *)
}.

(** [__parse_flags__]: the fragments between [')'], each without its
    leading blanks and ['(']; a fragment with no [':'] cannot be unpacked
    into [key, value] and is passed over. *)
Definition parse_flag (fl : gmap ustring ustring) (v : ustring)
    : gmap ustring ustring :=
  if bool_decide (Py.strip Py.uisspace v = []) then fl
  else match map (Py.strip Py.uisspace) (Py.split1 (N.eqb 58) v) with
       | [key; value] => <[key := value]> fl
       | _ => fl
       end.

Definition parse_flags (value : ustring) : gmap ustring ustring :=
  fold_left parse_flag
    (map (Py.lstrip (λ c, (c =? 32) || (c =? 40))%N)
         (Py.split (N.eqb 41) (Py.strip Py.uisspace value)))
    ∅.

(** [RFCCacheEntry.__init__(self, cache, number, description)]; [None]
    for [description] is the [None] of Python, which has no [decode]. *)
Definition new_entry (num : Z) (descr : option bytes) : result RFCCacheEntry :=
  match descr with
  | None => Raise AttributeError
  | Some d =>
      match Utf8.decode d with
      | inl e => Raise e
      | inr ud =>
          let unparsed := mkEntry num (u "title not parsed") [] ∅ ud None in
          match rmatch id RE_RFC_DESCRIPTION ud with
          | Some m =>
              match group m "title", group m "date", group m "flags" with
              | Some t, Some dt, Some fl =>
                  match Strptime.month_year dt with
                  | inl e => Raise e
                  | inr when => Return (mkEntry num t [] (parse_flags fl) ud (Some when))
                  end
              | _, _, _ => Return unparsed
              end
          | None => Return unparsed
          end
      end
  end.

(** [__lt__], the comparison [list.sort] uses. *)
Definition entry_lt (a b : RFCCacheEntry) : bool := number a <? number b.

(** ** [RFCIndex]

    The index is a Python list of entries that its methods change in
    place: a method is a function from the entries before the call to its
    outcome and the entries after it. *)

Definition M (A : Type) : Type :=
  list RFCCacheEntry → result A * list RFCCacheEntry.

Definition ret {A} (a : A) : M A := λ st, (Return a, st).
Definition raise {A} (e : exn) : M A := λ st, (Raise e, st).
Definition bind {A B} (f : A → M B) (m : M A) : M B :=
  λ st, match m st with
        | (inr a, st') => f a st'
        | (inl e, st') => (Raise e, st')
        end.
#[global] Instance M_ret : MRet M := @ret.
#[global] Instance M_bind : MBind M := @bind.
(** [self.append(e)] *)
Definition append (e : RFCCacheEntry) : M unit := λ st, (Return tt, st ++ [e]).
(** [del self[0:len(self)]] *)
Definition clear : M unit := λ _, (Return tt, []).

(** The index file on disk: absent, present but failing to open or read
    ([IOError] or [OSError]), or present with its content. *)
Inductive index_file :=
| NoFile
| Unreadable
| File (content : bytes).

(** [for line in f]: the lines of the file, each with its newline. *)
Fixpoint readlines (s : bytes) : list bytes :=
  match s with
  | [] => []
  | c :: s' =>
      if (code c =? 10)%N then [c] :: readlines s'
      else match readlines s' with
           | l :: ls => (c :: l) :: ls
           | [] => [[c]]
           end
  end.

(** The local variables of the loop of [load]. *)
Record loop_vars := mkVars {
  header : bool;
  rfc : option Z;
  text : option bytes
}.

Definition init_vars : loop_vars := mkVars false None None.

Definition bspace (c : ascii) : bool := Py.isspace (code c).

(** ['{0}'.format(text)] *)
Definition format_str (t : option bytes) : bytes :=
  match t with
  | Some t => t
  | None => B "None"
  end.

(** Lines 218-232 of the loop body: [Some h] when the line is passed over
    by a [continue], [h] being [header] afterwards; [None] when the line
    goes on to the pattern.  The argument is the line after [rstrip]. *)
Definition skip_line (hdr : bool) (line : bytes) : option bool :=
  if bool_decide (line = []) then Some hdr
  else if Py.startswith Ascii.eqb line (B "~~~") then Some (negb hdr)
  else if hdr
          || bool_decide (Py.strip bspace line = B "RFC INDEX")
          || bool_decide (Py.strip bspace line = B "---------")
       then Some hdr
  else None.

(** [rfc is not None and rfc not in RFC_SKIPPED], then the [append] in its
    [try]. *)
Definition finalize (v : loop_vars) : M unit :=
  match rfc v with
  | Some n =>
      if bool_decide (n ∈ RFC_SKIPPED) then ret tt
      else match new_entry n (text v) with
           | inr e => append e
           | inl (RFCCacheError _) => ret tt
           | inl e => raise e
           end
  | None => ret tt
  end.

(** [not rfc] *)
Definition falsy (r : option Z) : bool :=
  match r with
  | None => true
  | Some n => n =? 0
  end.

(** One turn of the loop of [load]. *)
Definition load_line (v : loop_vars) (raw : bytes) : M loop_vars :=
  let line := Py.rstrip bspace raw in
  match skip_line (header v) line with
  | Some h => ret (mkVars h (rfc v) (text v))
  | None =>
      match rmatch code RE_RFC_INDEX_LINE line with
      | Some m =>
          finalize v ;;
          match group m "1", group m "2" with
          | Some g1, Some g2 =>
              if bool_decide (g2 = B "Not Issued.")
              then ret (mkVars (header v) None None)
              else ret (mkVars (header v)
                          (Some (Py.digits_value (map code g1))) (Some g2))
          | _, _ => raise AttributeError
          end
      | None =>
          if falsy (rfc v) then raise (RFCCacheError UnsupportedFormat)
          else ret (mkVars (header v) (rfc v)
                      (Some (format_str (text v) ++ B " " ++ Py.strip bspace line)))
      end
  end.

Fixpoint load_lines (v : loop_vars) (lines : list bytes) : M loop_vars :=
  match lines with
  | [] => ret v
  | l :: rest => v' ← load_line v l; load_lines v' rest
  end.

(** [RFCIndex.load] *)
Definition load (f : index_file) : M unit :=
  match f with
  | NoFile => raise (RFCCacheError NoSuchFile)
  | Unreadable => clear ;; raise (RFCCacheError ErrorLoading)
  | File content => clear ;; load_lines init_vars (readlines content) ;; ret tt
  end.

(** [RFCIndex.get_by_number]; it reads the entries and changes nothing.
    The argument is seen through [int(number)] only, so it is given as
    what that conversion does: the integer it returns, or the exception
    it raises ([ValueError] for a string that is no number, [TypeError]
    for [None]).  [self[-1]] is [last self], and raises [IndexError] on an
    empty list. *)
Definition get_by_number (self : list RFCCacheEntry) (int_number : result Z)
    : result RFCCacheEntry :=
  if (length self =? 0)%nat then Raise (RFCCacheError NothingLoaded)
  else
    match int_number with
    | inl ValueError | inl TypeError => Raise (RFCCacheError InvalidNumber)
    | inl e => Raise e
    | inr n =>
        if n <? 1 then Raise (RFCCacheError InvalidNumber)
        else if bool_decide (n ∈ RFC_SKIPPED)
        then Raise (RFCCacheError (NotAvailable n))
        else
          match last self with
          | None => Raise IndexError
          | Some latest =>
              if number latest <? n
              then Raise (RFCCacheError (NotYetCached n (number latest)))
              else match find (λ rfc, number rfc =? n) self with
                   | Some rfc => Return rfc
                   | None => Raise (RFCCacheError (NotFound n))
                   end
          end
    end.

(** [requests.get(INDEX_URL)], when it returns. *)
Record response := mkResponse { status_code : Z; content : bytes }.

(** What [open(self.path, 'w').write(res.content)] does: it writes the
    file, or raises and leaves some file behind. *)
Inductive write_outcome :=
| Written
| WriteRaises (e : exn) (left : index_file).

(** [RFCIndex.update]: the outcome, the entries and the index file
    afterwards. *)
Definition update (get : result response) (w : write_outcome)
    (f : index_file) (self : list RFCCacheEntry)
    : result unit * list RFCCacheEntry * index_file :=
  match get with
  | inl e => (Raise e, self, f)
  | inr res =>
      if negb (status_code res =? 200)
      then (Raise (RFCCacheError (ErrorDownloading (status_code res))), self, f)
      else match w with
           | WriteRaises OSError f' => (Raise (RFCCacheError ErrorWriting), self, f')
           | WriteRaises e f' => (Raise e, self, f')
           | Written =>
               let f' := File (content res) in
               (load f' self, f')
           end
  end.

(** [list.sort()]: a stable sort that compares with [<] only; the result
    of a stable sort does not depend on the algorithm. *)
Section Sort.
Context {A : Type} (lt : A → A → bool).

Fixpoint insert_sorted (x : A) (l : list A) : list A :=
  match l with
  | [] => [x]
  | y :: l' => if lt y x then y :: insert_sorted x l' else x :: l
  end.

Definition list_sort (l : list A) : list A := foldr insert_sorted [] l.
End Sort.

(** ** The search index

    The whoosh index is outside the module; it is modelled by the calls
    the module makes on it and by what it answers. *)

Record document := mkDoc {
  doc_number : Z;
  doc_title : ustring;
  doc_content : ustring
}.

Inductive call :=
| UpdateDocument (d : document)     (* writer.update_document(...) *)
| Commit                            (* writer.commit() *)
| NewWriter.                        (* self.windex.writer() *)

Definition is_commit (c : call) : bool :=
  match c with
  | Commit => true
  | _ => false
  end.

Inductive field := Title | Content.

Section Whoosh.
(** [open(rfc.path, 'r').read()] for the entry of a number. *)
Variable read_file : Z → result bytes.
(** Whether [writer.commit()] raises [IndexingError], given the calls
    made before it. *)
Variable commit_raises : list call → bool.
(** The numbers of the documents [s.search(QueryParser(field,
    RFC_CACHE_SCHEMA).parse(terms))] returns, in the order it returns
    them. *)
Variable hits : field → bytes → list Z.

(** Computations that call the index: the calls so far are the state. *)
Definition W (A : Type) : Type := list call → result A * list call.

Definition wret {A} (a : A) : W A := λ tr, (Return a, tr).
Definition wraise {A} (e : exn) : W A := λ tr, (Raise e, tr).
Definition wbind {A B} (f : A → W B) (m : W A) : W B :=
  λ tr, match m tr with
        | (inr a, tr') => f a tr'
        | (inl e, tr') => (Raise e, tr')
        end.
#[local] Instance W_ret : MRet W := @wret.
#[local] Instance W_bind : MBind W := @wbind.

Definition do_call (c : call) : W unit := λ tr, (Return tt, tr ++ [c]).

Definition commit : W unit :=
  λ tr, (if commit_raises tr then Raise IndexingError else Return tt,
         tr ++ [Commit]).

(** [data.decode('iso-8859-1')] *)
Definition latin1 (data : bytes) : ustring := map code data.

(** The body of the loop of [update_missing_indexes]; the result is
    [done] afterwards. *)
Definition index_one (done : nat) (rfc : RFCCacheEntry) : W nat :=
  match read_file (number rfc) with
  | inl OSError | inl IOError =>
      wraise (RFCCacheError (ErrorReading (number rfc)))
  | inl e => wraise e
  | inr data =>
      let doc :=
        match Utf8.decode data with
        | inr d => d
        | inl _ => latin1 data
        end in
      do_call (UpdateDocument (mkDoc (number rfc) (description rfc) doc));;
      if (CACHE_COMMIT_INTERVAL <=? done)%nat
      then commit;; do_call NewWriter;; wret O
      else wret (S done)
  end.

Fixpoint index_loop (done : nat) (rfcs : list RFCCacheEntry) : W nat :=
  match rfcs with
  | [] => wret done
  | rfc :: rest => done' ← index_one done rfc; index_loop done' rest
  end.

(** [RFCIndex.update_missing_indexes]; [stored] is what
    [all_stored_fields()] lists, so [get_indexed()] is it sorted. *)
Definition get_indexed (stored : list Z) : list Z := list_sort Z.ltb stored.

Definition missing (self : list RFCCacheEntry) (stored : list Z)
    : list RFCCacheEntry :=
  filter (λ rfc, number rfc ∉ get_indexed stored) self.

(** The last [writer.commit()], in its [try]. *)
Definition final_commit : W unit :=
  λ tr, match commit tr with
        | (inl IndexingError, tr') => (Return tt, tr')
        | r => r
        end.

Definition update_missing_indexes (self : list RFCCacheEntry)
    (stored : list Z) : W unit :=
  do_call NewWriter;;
  index_loop O (missing self stored);;
  final_commit.

(** The two loops of [search] over the hits: [rfcs] are the numbers
    seen, [results] the entries resolved. *)
Fixpoint collect (self : list RFCCacheEntry) (dedup : bool) (ns : list Z)
    (rfcs : list Z) (results : list RFCCacheEntry)
    : result (list Z * list RFCCacheEntry) :=
  match ns with
  | [] => Return (rfcs, results)
  | n :: ns' =>
      if dedup && bool_decide (n ∈ rfcs)
      then collect self dedup ns' rfcs results
      else match get_by_number self (Return n) with
           | inl e => Raise e
           | inr e => collect self dedup ns' (rfcs ++ [n]) (results ++ [e])
           end
  end.

(** [RFCIndex.search] *)
Definition search (self : list RFCCacheEntry) (terms : list bytes)
    (bodysearch : bool) : result (list RFCCacheEntry) :=
  let q := Py.join (B " ") (map Py.lower terms) in
  match collect self false (hits Title q) [] [] with
  | inl e => Raise e
  | inr (rfcs, results) =>
      if bodysearch then
        match collect self true (hits Content q) rfcs results with
        | inl e => Raise e
        | inr (_, results') => Return (list_sort entry_lt results')
        end
      else Return (list_sort entry_lt results)
  end.

End Whoosh.

(** ** Notions the properties are stated with *)

(** The first line of the file that reaches the pattern of [load], after
    [rstrip]: not blank, not a [~~~] line, not inside the header and not
    one of the two labels.  [hdr] is [header] at the start. *)
Fixpoint first_parsed_line (hdr : bool) (lines : list bytes) : option bytes :=
  match lines with
  | [] => None
  | raw :: rest =>
      match skip_line hdr (Py.rstrip bspace raw) with
      | Some h => first_parsed_line h rest
      | None => Some (Py.rstrip bspace raw)
      end
  end.

(** The description of the specification's example. *)
Definition example_description : bytes :=
  B "Example Title. March 1999. (Status: PROPOSED STANDARD)".

(** An index file of two records. *)
Definition two_records : bytes :=
  B "0001 First Title. May 1990. (Status: UNKNOWN)
0002 Second Title. June 1990. (Status: UNKNOWN)
".

(** Entries numbered 1 to [k], as [load] makes them from a description the
    pattern does not match. *)
Definition plain_entry (n : Z) : RFCCacheEntry :=
  mkEntry n (u "title not parsed") [] ∅ (u "text") None.

Definition entries_upto (k : nat) : list RFCCacheEntry :=
  map (λ i, plain_entry (Z.of_nat i)) (seq 1 k).

(** The call that indexes an entry whose file holds [body]. *)
Definition upsert_of (body : ustring) (rfc : RFCCacheEntry) : call :=
  UpdateDocument (mkDoc (number rfc) (description rfc) body).

(** How many times [writer.commit()] was called. *)
Definition commits (tr : list call) : nat := length (List.filter is_commit tr).

(** An entry whose number is not one of [RFC_SKIPPED]. *)
Definition not_skipped (rfc : RFCCacheEntry) : Prop :=
  number rfc ∉ RFC_SKIPPED.

(** A number [get_by_number] returns an entry for. *)
Definition resolves (self : list RFCCacheEntry) (n : Z) : Prop :=
  ∃ e, get_by_number self (Return n) = Return e.

(** The order of [list.sort] on values compared by a key. *)
Definition key_lt {A} (key : A → Z) (a b : A) : bool := key a <? key b.
Definition key_le {A} (key : A → Z) (a b : A) : Prop := key a ≤ key b.

(** An index file whose first line of text is not a numbered line. *)
Definition stray_first : bytes :=
  B "~~~
header text 1234
~~~
RFC INDEX
---------

    text with no number before it
0001 First Title. May 1990. (Status: UNKNOWN)
".

(** An index file with a 'Not Issued.' record followed by more text, and
    with a record of a number of [RFC_SKIPPED]. *)
Definition not_issued_then_text : bytes :=
  B "0007 Seventh Title. May 1990. (Status: UNKNOWN)
0008 Eighth Title. May 1990. (Status: UNKNOWN)
0014 Not Issued.
     more text
0015 Fifteenth Title. June 1990. (Status: UNKNOWN)
".

(** A search index that answers one query: two title hits, and three
    content hits of which one is a title hit and one comes twice. *)
Definition example_hits (f : field) (q : bytes) : list Z :=
  if bool_decide (q = B "example title") then
    match f with
    | Title => [15; 1]
    | Content => [7; 1; 7]
    end
  else [].

(** A search index that returns document 3 twice for the title query,
    and documents 3 and 2, the latter twice, for the content query. *)
Definition repeated_title_hits (f : field) (q : bytes) : list Z :=
  match f with
  | Title => [3; 1; 3]
  | Content => [3; 2; 2]
  end.

(** The entry [load] makes of the first record of
    [not_issued_then_text]. *)
Definition seventh_entry : RFCCacheEntry :=
  {| number := 7;
     title := u "Seventh Title.";
     authors := [];
     flags := {[ u "Status" := u "UNKNOWN" ]};
     description := u "Seventh Title. May 1990. (Status: UNKNOWN)";
     date := Some (mkDate 1990 5 1) |}.

Definition newline : ascii := ascii_of_N 10.

(** ** Notions for the loop, the writer and the patterns *)

(** What [Star (Cls p)] followed by [k] does on [s]: the longest run of
    [p] first, then shorter ones. *)
Fixpoint star_cls {C} (code_of : C → N) (p : N → bool)
    (k : list C → option (groups (C:=C))) (s : list C) : option groups :=
  match s with
  | c :: s' =>
      if p (code_of c)
      then match star_cls code_of p k s' with
           | Some res => Some res
           | None => k s
           end
      else k s
  | [] => k s
  end.

(** Bytes that are digits, and bytes that are blanks. *)
Definition is_digit (c : ascii) : Prop := Py.isdigit (code c) = true.
Definition is_space (c : ascii) : Prop := Py.isspace (code c) = true.

(** A line of [~~~], which opens or closes the header. *)
Definition is_tilde (raw : bytes) : Prop :=
  Py.startswith Ascii.eqb (Py.rstrip bspace raw) (B "~~~") = true.

(** A line that reaches the pattern outside the header and does not
    match it: text that continues a record. *)
Definition is_continuation (raw : bytes) : Prop :=
  skip_line false (Py.rstrip bspace raw) = None
  ∧ rmatch code RE_RFC_INDEX_LINE (Py.rstrip bspace raw) = None.

(** The text of a record after its continuation lines. *)
Definition joined (t : bytes) (conts : list bytes) : bytes :=
  fold_left (λ acc raw, acc ++ B " " ++ Py.strip bspace (Py.rstrip bspace raw))
            conts t.

(** The variables of the loop after a numbered line with groups [m]. *)
Definition vars_after (m : groups (C:=ascii)) : option loop_vars :=
  match group m "1", group m "2" with
  | Some g1, Some g2 =>
      Some (if bool_decide (g2 = B "Not Issued.")
            then mkVars false None None
            else mkVars false (Some (Py.digits_value (map code g1))) (Some g2))
  | _, _ => None
  end.

(** The documents handed to [writer.update_document], in order. *)
Fixpoint upserts (tr : list call) : list document :=
  match tr with
  | [] => []
  | UpdateDocument d :: tr' => d :: upserts tr'
  | _ :: tr' => upserts tr'
  end.

(** The document made of an entry and of the bytes of its file. *)
Definition document_of (data : bytes) (rfc : RFCCacheEntry) : document :=
  mkDoc (number rfc) (description rfc)
    (match Utf8.decode data with
     | inr d => d
     | inl _ => latin1 data
     end).

(** The strings a pattern can consume, anchors consuming nothing. *)
Inductive lang {C} (code_of : C → N) : re → list C → Prop :=
| lang_bol : lang code_of Bol []
| lang_eol : lang code_of Eol []
| lang_cls p c : p (code_of c) = true → lang code_of (Cls p) [c]
| lang_cat r1 r2 w1 w2 :
    lang code_of r1 w1 → lang code_of r2 w2 → lang code_of (Cat r1 r2) (w1 ++ w2)
| lang_star_nil r : lang code_of (Star r) []
| lang_star_more r w1 w2 :
    lang code_of r w1 → lang code_of (Star r) w2 →
    lang code_of (Star r) (w1 ++ w2)
| lang_grp name r w : lang code_of r w → lang code_of (Grp name r) w.

(** [Q] holds of whatever a group of the pattern can capture. *)
Fixpoint groups_ok {C} (code_of : C → N) (Q : string → list C → Prop)
    (r : re) : Prop :=
  match r with
  | Grp name r' => (∀ w, lang code_of r' w → Q name w) ∧ groups_ok code_of Q r'
  | Cat r1 r2 => groups_ok code_of Q r1 ∧ groups_ok code_of Q r2
  | Star r' => groups_ok code_of Q r'
  | _ => True
  end.

(** What the groups of [RE_RFC_DESCRIPTION] capture: a title that ends
    with a period, flags in parentheses. *)
Definition description_group (name : string) (w : ustring) : Prop :=
  if String.eqb name "title" then ∃ t, w = t ++ [46%N]
  else if String.eqb name "flags" then ∃ f, w = 40%N :: f ++ [41%N]
  else True.

(** ** File names and URLs of an entry *)

(** [RFC_BASE_URL = 'http://www.ietf.org/rfc/'] *)
Definition RFC_BASE_URL : bytes := B "http://www.ietf.org/rfc/".

(** The decimal digits of a natural number, ["0"] for 0. *)
Definition digits_of (n : N) : bytes :=
  list_ascii_of_string (NilEmpty.string_of_uint (N.to_uint n)).

(** ['{0}'.format(z)] for an integer. *)
Definition format_int (z : Z) : bytes :=
  if z <? 0 then "-"%char :: digits_of (Z.to_N (- z))
  else digits_of (Z.to_N z).

(** ['{0:04d}'.format(z)]: zeros after the sign up to a width of 4. *)
Definition format_04d (z : Z) : bytes :=
  let sign := if z <? 0 then ["-"%char] else [] in
  let ds := digits_of (Z.to_N (Z.abs z)) in
  sign ++ repeat "0"%char (4 - length sign - length ds) ++ ds.

(** [RFCCacheEntry.filename] *)
Definition filename (rfc : RFCCacheEntry) : bytes :=
  B "rfc" ++ format_int (number rfc) ++ B ".txt".

(** [RFCCacheEntry.rfc_download_url] *)
Definition rfc_download_url (rfc : RFCCacheEntry) : bytes :=
  RFC_BASE_URL ++ B "rfc" ++ format_04d (number rfc) ++ B ".txt".

(** [os.path.join(a, *p)] of [posixpath]. *)
Definition path_join (a : bytes) (p : list bytes) : bytes :=
  fold_left
    (λ path b,
       if Py.startswith Ascii.eqb b (B "/") then b
       else if bool_decide (path = [])
               || Py.startswith Ascii.eqb (rev path) (B "/")
            then path ++ b
            else path ++ B "/" ++ b)
    p a.

(** [RFCCacheEntry.path], [cachedir] being [self.cache.cachedir]. *)
Definition entry_path (cachedir : bytes) (rfc : RFCCacheEntry) : result ustring :=
  Utf8.decode (path_join cachedir [B "files"; filename rfc]).

(** The number a string of digits writes, for the proofs. *)
Definition value_of (s : bytes) : option N :=
  option_map N.of_uint (NilEmpty.uint_of_string (string_of_list_ascii s)).

(** Files of the cache that all hold ['body'], but for the file of one
    number, which cannot be read. *)
Definition all_but (bad : Z) (n : Z) : result bytes :=
  if n =? bad then Raise IOError else Return (B "body").

(** Every group recorded so far holds a string [Q] accepts under the
    group's name. *)
Definition groups_hold {C} (Q : string → list C → Prop)
    (g : groups (C:=C)) : Prop :=
  Forall (λ nw, Q nw.1 nw.2) g.

(** ** Properties of [get_by_number] *)

Lemma last_nonempty {A} (l : list A) : l ≠ [] → ∃ x, last l = Some x.
Proof.
  intros Hne. destruct (last l) as [x|] eqn:E; [by exists x|].
  by apply last_None in E.
Qed.

Lemma skipped_positive n : n ∈ RFC_SKIPPED → 1 ≤ n.
Proof.
  unfold RFC_SKIPPED. rewrite !elem_of_cons, elem_of_nil. lia.
Qed.

(** C9.  On an index with no entries [get_by_number] raises
    'No RFCs loaded to index' whatever its argument is, be it a number
    below 1, a number of [RFC_SKIPPED] or a value [int()] raises on: the
    length is tested before the argument is looked at. *)
Theorem get_by_number_nothing_loaded
    (self : list RFCCacheEntry) (int_number : result Z) :
  length self = 0%nat →
  get_by_number self int_number = Raise (RFCCacheError NothingLoaded).
Proof.
  intros Hlen. unfold get_by_number.
  destruct (Nat.eqb_spec (length self) 0) as [_|Hne]; [done|].
  by destruct Hne.
Qed.

Lemma get_by_number_nothing_loaded_witness :
  get_by_number [] (Raise ValueError) = Raise (RFCCacheError NothingLoaded)
  ∧ get_by_number [] (Return 0) = Raise (RFCCacheError NothingLoaded)
  ∧ get_by_number [] (Return 8) = Raise (RFCCacheError NothingLoaded).
Proof.
  split; [|split].
  - apply (get_by_number_nothing_loaded [] (Raise ValueError)). reflexivity.
  - apply (get_by_number_nothing_loaded [] (Return 0)). reflexivity.
  - apply (get_by_number_nothing_loaded [] (Return 8)). reflexivity.
Defined.

(** [get_by_number] on an index that has entries, for an argument that
    converts to a number that is at least 1. *)
Lemma get_by_number_checked self n latest :
  last self = Some latest →
  1 ≤ n →
  get_by_number self (Return n)
  = if bool_decide (n ∈ RFC_SKIPPED)
    then Raise (RFCCacheError (NotAvailable n))
    else if number latest <? n
    then Raise (RFCCacheError (NotYetCached n (number latest)))
    else match find (λ rfc, number rfc =? n) self with
         | Some rfc => Return rfc
         | None => Raise (RFCCacheError (NotFound n))
         end.
Proof.
  intros Hlast Hn. unfold get_by_number.
  destruct self as [|e self']; [done|]. cbn [length Nat.eqb].
  rewrite Hlast. unfold Return. cbv beta iota.
  destruct (Z.ltb_spec n 1); [lia|done].
Qed.

(** C4.  On an index that has entries, a number that is at least 1, is not
    in [RFC_SKIPPED] and is greater than the number of every entry is
    answered with 'Requested n, latest cached RFC m', [m] being the number
    of the last entry, and so not with 'not found from local cache'. *)
Theorem get_by_number_not_yet_cached
    (self : list RFCCacheEntry) (n : Z) :
  self ≠ [] →
  1 ≤ n →
  n ∉ RFC_SKIPPED →
  Forall (λ rfc, number rfc < n) self →
  ∃ latest, last self = Some latest
    ∧ get_by_number self (Return n)
      = Raise (RFCCacheError (NotYetCached n (number latest)))
    ∧ get_by_number self (Return n) ≠ Raise (RFCCacheError (NotFound n)).
Proof.
  intros Hne Hpos Hskip Hall.
  destruct (last_nonempty self Hne) as [latest Hlast].
  exists latest. split; [done|].
  assert (number latest < n) as Hlt.
  { rewrite Forall_forall in Hall. apply Hall.
    apply last_Some in Hlast as [l' ->].
    apply elem_of_app. right. by apply list_elem_of_singleton. }
  rewrite (get_by_number_checked _ _ _ Hlast Hpos).
  rewrite bool_decide_eq_false_2 by done.
  destruct (Z.ltb_spec (number latest) n); [|lia].
  split; [done|discriminate].
Qed.

Lemma get_by_number_not_yet_cached_witness :
  ∃ latest, last (entries_upto 3) = Some latest
    ∧ get_by_number (entries_upto 3) (Return 7)
      = Raise (RFCCacheError (NotYetCached 7 (number latest)))
    ∧ get_by_number (entries_upto 3) (Return 7)
      ≠ Raise (RFCCacheError (NotFound 7)).
Proof.
  apply (get_by_number_not_yet_cached (entries_upto 3) 7).
  - discriminate.
  - lia.
  - unfold RFC_SKIPPED. rewrite !elem_of_cons, elem_of_nil. lia.
  - vm_compute. repeat constructor.
Defined.

(** ** Properties of [load] *)

Lemma new_entry_number n d e : new_entry n d = Return e → number e = n.
Proof.
  unfold new_entry, Return, Raise. intros H.
  repeat (match type of H with
          | (match ?x with _ => _ end) = _ => destruct x eqn:?
          end);
    by simplify_eq.
Qed.

(** What [finalize] leaves in the index: nothing new, or one entry with
    the number of the record that was being accumulated. *)
Lemma finalize_cases v st :
  (finalize v st).2 = st
  ∨ ∃ n e, rfc v = Some n ∧ (n ∉ RFC_SKIPPED)
      ∧ new_entry n (text v) = Return e
      ∧ finalize v st = (Return tt, st ++ [e]).
Proof.
  unfold finalize. destruct (rfc v) as [n|]; [|by left].
  case_bool_decide; [by left|].
  destruct (new_entry n (text v)) as [[]|e] eqn:E; try by left.
  right. by exists n, e.
Qed.

Lemma load_line_store v raw st :
  (load_line v raw st).2 = st ∨ (load_line v raw st).2 = (finalize v st).2.
Proof.
  unfold load_line.
  destruct (skip_line _ _); [by left|].
  destruct (rmatch _ _ _) as [m|].
  - right. unfold mbind, M_bind, bind.
    destruct (finalize v st) as [[e|[]] st']; [done|].
    destruct (group m "1"), (group m "2"); try done.
    by case_bool_decide.
  - left. by destruct (falsy _).
Qed.

Lemma finalize_not_skipped v st :
  Forall not_skipped st → Forall not_skipped (finalize v st).2.
Proof.
  intros Hst. destruct (finalize_cases v st) as [->|(n & e & _ & Hn & He & ->)];
    [done|].
  apply Forall_app. split; [done|]. apply Forall_singleton.
  unfold not_skipped. by rewrite (new_entry_number _ _ _ He).
Qed.

Lemma load_lines_not_skipped lines v st :
  Forall not_skipped st → Forall not_skipped (load_lines v lines st).2.
Proof.
  revert v st. induction lines as [|l lines IH]; intros v st Hst; [done|].
  cbn [load_lines]. unfold mbind, M_bind, bind.
  assert (Forall not_skipped (load_line v l st).2) as Hl.
  { destruct (load_line_store v l st) as [->| ->];
      [done|by apply finalize_not_skipped]. }
  destruct (load_line v l st) as [[e|v'] st']; [done|]. by apply IH.
Qed.

Lemma load_not_skipped content self :
  Forall not_skipped (load (File content) self).2.
Proof.
  unfold load, clear. unfold mbind, M_bind, bind.
  pose proof (load_lines_not_skipped (readlines content) init_vars []
                (Forall_nil_2 _)) as H.
  by destruct (load_lines init_vars (readlines content) []) as [[e|v] st].
Qed.

(** C5, as amended.  For a number of [RFC_SKIPPED]: the entries [load]
    leaves never have it, whatever the file holds; and on an index that
    has entries [get_by_number] raises 'not available from web'. *)
Theorem skipped_never_loaded_not_available
    (n : Z) (content : bytes) (before self : list RFCCacheEntry) :
  n ∈ RFC_SKIPPED →
  self ≠ [] →
  Forall (λ rfc, number rfc ≠ n) (load (File content) before).2
  ∧ get_by_number self (Return n) = Raise (RFCCacheError (NotAvailable n)).
Proof.
  intros Hn Hne. split.
  - eapply Forall_impl; [apply load_not_skipped|].
    intros e He Heq. apply He. by rewrite Heq.
  - destruct (last_nonempty self Hne) as [latest Hlast].
    rewrite (get_by_number_checked _ _ _ Hlast (skipped_positive n Hn)).
    by rewrite bool_decide_eq_true_2.
Qed.

Lemma skipped_never_loaded_not_available_witness :
  let self := (load (File not_issued_then_text) []).2 in
  8 ∈ RFC_SKIPPED
  ∧ map number self = [7]
  ∧ Forall (λ rfc, number rfc ≠ 8) self
  ∧ get_by_number self (Return 8) = Raise (RFCCacheError (NotAvailable 8)).
Proof.
  cbv zeta.
  assert (8 ∈ RFC_SKIPPED) as Hin.
  { unfold RFC_SKIPPED. rewrite !elem_of_cons. lia. }
  split; [exact Hin|]. split; [vm_compute; reflexivity|].
  apply (skipped_never_loaded_not_available 8 not_issued_then_text []
           (load (File not_issued_then_text) []).2).
  - exact Hin.
  - vm_compute. discriminate.
Defined.

(** C5, as stated, fails on an index with no entries, such as the one
    [load] leaves for an empty file: 8 is in [RFC_SKIPPED], and the
    error is 'No RFCs loaded to index'. *)
Lemma skipped_on_empty_index_is_nothing_loaded :
  let self := (load (File []) []).2 in
  8 ∈ RFC_SKIPPED
  ∧ get_by_number self (Return 8) = Raise (RFCCacheError NothingLoaded)
  ∧ get_by_number self (Return 8) ≠ Raise (RFCCacheError (NotAvailable 8)).
Proof.
  cbn. split; [unfold RFC_SKIPPED; set_solver|]. split; [done|discriminate].
Qed.

Lemma load_file content self :
  load (File content) self
  = match load_lines init_vars (readlines content) [] with
    | (inl e, st) => (Raise e, st)
    | (inr _, st) => (Return tt, st)
    end.
Proof. reflexivity. Qed.

Lemma load_lines_app l1 l2 v st :
  load_lines v (l1 ++ l2) st
  = match load_lines v l1 st with
    | (inr v', st') => load_lines v' l2 st'
    | (inl e, st') => (Raise e, st')
    end.
Proof.
  revert v st. induction l1 as [|l l1 IH]; intros v st; [done|].
  cbn [app load_lines]. unfold mbind, M_bind, bind.
  destruct (load_line v l st) as [[e|v'] st']; [done|]. apply IH.
Qed.

(** A line that does not match, met while no record is being
    accumulated, ends the loop with 'Unsupported file format.' *)
Lemma load_line_stray hdr line rest st :
  skip_line hdr (Py.rstrip bspace line) = None →
  rmatch code RE_RFC_INDEX_LINE (Py.rstrip bspace line) = None →
  load_lines (mkVars hdr None None) (line :: rest) st
  = (Raise (RFCCacheError UnsupportedFormat), st).
Proof.
  intros Hskip Hre. cbn [load_lines]. unfold mbind, M_bind, bind, load_line.
  cbn [header rfc text]. by rewrite Hskip, Hre.
Qed.

Lemma load_lines_leading_continuation lines hdr line st :
  first_parsed_line hdr lines = Some line →
  rmatch code RE_RFC_INDEX_LINE line = None →
  load_lines (mkVars hdr None None) lines st
  = (Raise (RFCCacheError UnsupportedFormat), st).
Proof.
  revert hdr. induction lines as [|raw lines IH]; intros hdr Hfirst Hre; [done|].
  cbn [first_parsed_line] in Hfirst.
  destruct (skip_line hdr (Py.rstrip bspace raw)) as [h|] eqn:Hskip.
  - cbn [load_lines]. unfold mbind, M_bind, bind, load_line.
    cbn [header rfc text]. rewrite Hskip. cbn. by apply IH.
  - injection Hfirst as <-. by apply load_line_stray.
Qed.

(** C3.  When the first line of the index file that is neither blank, nor
    header, nor a label does not match the pattern of a numbered line,
    [load] raises 'Unsupported file format.' and leaves the index with no
    entries, whatever it held before. *)
Theorem load_leading_continuation_fails_empty
    (content : bytes) (self : list RFCCacheEntry) (line : bytes) :
  first_parsed_line false (readlines content) = Some line →
  rmatch code RE_RFC_INDEX_LINE line = None →
  load (File content) self = (Raise (RFCCacheError UnsupportedFormat), []).
Proof.
  intros Hfirst Hre. rewrite load_file. unfold init_vars.
  by rewrite (load_lines_leading_continuation _ false line [] Hfirst Hre).
Qed.

Lemma load_leading_continuation_fails_empty_witness :
  load (File stray_first) (entries_upto 2)
  = (Raise (RFCCacheError UnsupportedFormat), []).
Proof.
  apply (load_leading_continuation_fails_empty stray_first (entries_upto 2)
           (B "    text with no number before it")).
  - vm_compute. reflexivity.
  - vm_compute. reflexivity.
Defined.

(** A line that matches [RE_RFC_INDEX_LINE] starts with a digit. *)
Lemma index_line_starts_with_digit line m :
  rmatch code RE_RFC_INDEX_LINE line = Some m →
  ∃ c rest, line = c :: rest ∧ Py.isdigit (code c) = true.
Proof.
  destruct line as [|c rest]; [discriminate|].
  intros H. exists c, rest. split; [done|].
  unfold rmatch, RE_RFC_INDEX_LINE in H.
  cbn [Seq fold_left Plus Digit run] in H.
  rewrite Nat.eqb_refl in H.
  by destruct (Py.isdigit (code c)).
Qed.

Lemma lstrip_snoc {C} (p : C → bool) l c :
  p c = false → ∃ t, Py.lstrip p (l ++ [c]) = t ++ [c].
Proof.
  intros Hc. induction l as [|x l [t IH]]; cbn.
  - rewrite Hc. by exists [].
  - destruct (p x); [by exists t|]. by exists (x :: l).
Qed.

Lemma strip_head {C} (p : C → bool) c rest :
  p c = false → ∃ t, Py.strip p (c :: rest) = c :: t.
Proof.
  intros Hc. unfold Py.strip, Py.rstrip. cbn [Py.lstrip]. rewrite Hc.
  cbn [rev]. destruct (lstrip_snoc p (rev rest) c Hc) as [t ->].
  exists (rev t). by rewrite rev_app_distr.
Qed.

Lemma digit_not_space c : Py.isdigit c = true → Py.isspace c = false.
Proof.
  unfold Py.isdigit, Py.isspace. intros [H1 H2]%andb_prop.
  apply N.leb_le in H1. apply N.leb_le in H2.
  apply orb_false_iff. split.
  - apply andb_false_iff. right. apply N.leb_gt. lia.
  - apply N.eqb_neq. lia.
Qed.

(** Outside the header a line that matches the pattern is not passed
    over; inside it the line is header text. *)
Lemma skip_line_numbered hdr line m :
  rmatch code RE_RFC_INDEX_LINE line = Some m →
  skip_line hdr line = if hdr then Some true else None.
Proof.
  intros (c & rest & -> & Hc)%index_line_starts_with_digit.
  unfold skip_line. rewrite bool_decide_eq_false_2 by done.
  assert (Ascii.eqb c "~" = false) as Htilde.
  { destruct (Ascii.eqb_spec c "~") as [->|]; [done|done]. }
  cbn [B list_ascii_of_string Py.startswith]. rewrite Htilde. cbn [andb].
  destruct hdr; [done|]. cbn [orb].
  destruct (strip_head bspace c rest (digit_not_space _ Hc)) as [t ->].
  rewrite !bool_decide_eq_false_2; [done| |]; intros [= ->]; done.
Qed.

(** C10.  A line that does not match the pattern, coming right after a
    numbered line whose text is exactly 'Not Issued.', ends [load] with
    'Unsupported file format.': the numbered line has put [rfc] back to
    [None].  [pre] are the lines before the numbered line [l1], read
    without an error, [st] the entries collected up to [l1]. *)
Theorem load_continuation_after_not_issued
    (content : bytes) (self : list RFCCacheEntry)
    (pre post : list bytes) (l1 l2 : bytes)
    (v : loop_vars) (st : list RFCCacheEntry) (m : groups) :
  readlines content = pre ++ l1 :: l2 :: post →
  load_lines init_vars (pre ++ [l1]) [] = (Return v, st) →
  header v = false →
  rmatch code RE_RFC_INDEX_LINE (Py.rstrip bspace l1) = Some m →
  group m "2" = Some (B "Not Issued.") →
  skip_line false (Py.rstrip bspace l2) = None →
  rmatch code RE_RFC_INDEX_LINE (Py.rstrip bspace l2) = None →
  load (File content) self = (Raise (RFCCacheError UnsupportedFormat), st).
Proof.
  intros Hlines Hpre Hhdr Hm Hg2 Hskip2 Hre2.
  rewrite load_file, Hlines.
  change (pre ++ l1 :: l2 :: post) with (pre ++ [l1] ++ l2 :: post).
  rewrite app_assoc, load_lines_app, Hpre.
  assert (v = mkVars false None None) as ->;
    [|unfold Return; cbn match; by rewrite load_line_stray].
  rewrite load_lines_app in Hpre.
  destruct (load_lines init_vars pre []) as [[e|v0] st0]; [done|].
  cbn [load_lines] in Hpre. unfold load_line in Hpre.
  rewrite (skip_line_numbered _ _ _ Hm), Hm in Hpre.
  unfold mbind, M_bind, bind in Hpre.
  destruct (header v0) eqn:Hh0.
  { unfold ret, Return in Hpre. simplify_eq/=. }
  destruct (finalize v0 st0) as [[e|[]] st1]; [done|].
  rewrite Hg2 in Hpre. destruct (group m "1"); [|done].
  rewrite bool_decide_eq_true_2 in Hpre by done.
  unfold ret, Return in Hpre. by simplify_eq/=.
Qed.

Lemma load_continuation_after_not_issued_witness :
  load (File not_issued_then_text) (entries_upto 2)
  = (Raise (RFCCacheError UnsupportedFormat), [seventh_entry]).
Proof.
  apply (load_continuation_after_not_issued
           not_issued_then_text (entries_upto 2)
           (take 2 (readlines not_issued_then_text))
           (drop 4 (readlines not_issued_then_text))
           (B "0014 Not Issued." ++ [newline])
           (B "     more text" ++ [newline])
           (mkVars false None None) [seventh_entry]
           [("2"%string, B "Not Issued."); ("1"%string, B "0014")]).
  - vm_compute. reflexivity.
  - vm_compute. reflexivity.
  - reflexivity.
  - vm_compute. reflexivity.
  - reflexivity.
  - vm_compute. reflexivity.
  - vm_compute. reflexivity.
Defined.

(** ** The description parser *)

(** C2, as amended.  From the description
    'Example Title. March 1999. (Status: PROPOSED STANDARD)' the entry
    gets the title 'Example Title.', with the period the pattern puts
    inside the group, the date 1 March 1999 and the flags
    {'Status': 'PROPOSED STANDARD'}. *)
Theorem example_description_parsed (n : Z) :
  new_entry n (Some example_description)
  = Return {| number := n;
              title := u "Example Title.";
              authors := [];
              flags := {[ u "Status" := u "PROPOSED STANDARD" ]};
              description :=
                u "Example Title. March 1999. (Status: PROPOSED STANDARD)";
              date := Some (mkDate 1999 3 1) |}.
Proof. vm_compute. reflexivity. Qed.

(** C2, as stated, fails: the title is not 'Example Title'. *)
Lemma example_title_keeps_period :
  ¬ ∃ e, new_entry 1 (Some example_description) = Return e
         ∧ title e = u "Example Title"
         ∧ date e = Some (mkDate 1999 3 1)
         ∧ flags e = {[ u "Status" := u "PROPOSED STANDARD" ]}.
Proof.
  intros (e & He & Ht & _). vm_compute in He.
  injection He as <-. vm_compute in Ht. discriminate.
Qed.

(** ** [update] *)

(** C6.  When the fetch answers with a status other than 200, or writing
    the index file raises, [update] raises and the entries are those from
    before the call. *)
Theorem update_failure_keeps_entries
    (res : response) (w : write_outcome) (f : index_file)
    (self : list RFCCacheEntry) :
  status_code res ≠ 200 ∨ (∃ e left, w = WriteRaises e left) →
  ∃ e, (update (Return res) w f self).1.1 = Raise e
       ∧ (update (Return res) w f self).1.2 = self.
Proof.
  intros H. unfold update, Return.
  destruct (Z.eqb_spec (status_code res) 200) as [Heq|Hne]; cbn [negb].
  - destruct H as [H|(e & left & ->)]; [done|].
    destruct e; eauto.
  - eauto.
Qed.

Lemma update_failure_keeps_entries_witness :
  ∃ e, (update (Return (mkResponse 404 [])) Written NoFile (entries_upto 2)).1.1
       = Raise e
       ∧ (update (Return (mkResponse 404 [])) Written NoFile (entries_upto 2)).1.2
         = entries_upto 2.
Proof.
  apply (update_failure_keeps_entries (mkResponse 404 []) Written NoFile
           (entries_upto 2)).
  left. cbn. lia.
Defined.

(** ** The last record of the file *)

(** The numbered line the file ends with adds nothing of its own: after
    it the index holds what finalizing the record before it gives, and
    its own number and text stay in the variables of the loop. *)
Lemma load_last_numbered_line pre l m v st :
  load_lines init_vars pre [] = (Return v, st) →
  header v = false →
  rmatch code RE_RFC_INDEX_LINE (Py.rstrip bspace l) = Some m →
  (load_lines init_vars (pre ++ [l]) []).2 = (finalize v st).2.
Proof.
  intros Hpre Hhdr Hm. rewrite load_lines_app, Hpre.
  unfold Return. cbv beta iota. cbn [load_lines]. unfold load_line.
  rewrite (skip_line_numbered _ _ _ Hm), Hm, Hhdr.
  unfold mbind, M_bind, bind.
  destruct (finalize v st) as [[e|[]] st1]; [done|].
  destruct (group m "1"), (group m "2"); try done.
  by case_bool_decide.
Qed.

(** C1.  [load] on a file of two records, 1 and 2, returns with the entry
    of record 1 only: nothing appends the record that is being
    accumulated when the file ends.  [get_by_number(2)] then raises
    'Requested 0002, latest cached RFC 0001'. *)
Theorem load_two_records_keeps_first_only :
  let out := load (File two_records) [] in
  out.1 = Return tt
  ∧ map number out.2 = [1]
  ∧ (∃ e, get_by_number out.2 (Return 1) = Return e ∧ number e = 1)
  ∧ (2 ∉ RFC_SKIPPED)
  ∧ get_by_number out.2 (Return 2) = Raise (RFCCacheError (NotYetCached 2 1)).
Proof.
  cbv zeta. split; [by vm_compute|]. split; [by vm_compute|].
  split; [eexists; split; by vm_compute|].
  split; [|by vm_compute].
  unfold RFC_SKIPPED. rewrite !elem_of_cons, elem_of_nil. lia.
Qed.

(** ** The commits of [update_missing_indexes] *)

Section Commits.
Variable read_file : Z → result bytes.
Variable commit_raises : list call → bool.

(** [IndexingError] from the last commit does not leave the method. *)
Lemma final_commit_swallows tr :
  final_commit commit_raises tr = (Return tt, tr ++ [Commit]).
Proof. unfold final_commit, commit. by destruct (commit_raises tr). Qed.

Lemma commits_app tr1 tr2 : commits (tr1 ++ tr2) = (commits tr1 + commits tr2)%nat.
Proof. unfold commits. by rewrite List.filter_app, length_app. Qed.

Hypothesis commits_succeed : ∀ tr, commit_raises tr = false.

(** One turn of the loop, for a file that can be read. *)
Lemma index_one_readable done rfc data tr :
  read_file (number rfc) = Return data →
  index_one read_file commit_raises done rfc tr
  = let doc := match Utf8.decode data with
               | inr d => d
               | inl _ => latin1 data
               end in
    if (50 <=? done)%nat
    then (Return O, tr ++ [upsert_of doc rfc; Commit; NewWriter])
    else (Return (S done), tr ++ [upsert_of doc rfc]).
Proof.
  intros Hdata. unfold index_one. rewrite Hdata. unfold Return.
  unfold CACHE_COMMIT_INTERVAL, mbind, W_bind, wbind, do_call.
  destruct (50 <=? done)%nat; [|done].
  unfold commit. rewrite commits_succeed. cbn.
  by rewrite <- !app_assoc.
Qed.

(** The loop commits once for every 51 documents: [done] goes from 0 to
    50 before the test [done >= CACHE_COMMIT_INTERVAL] holds. *)
Lemma index_loop_commits rfcs done tr :
  Forall (λ rfc, ∃ data, read_file (number rfc) = Return data) rfcs →
  (done ≤ 50)%nat →
  ∃ tr', index_loop read_file commit_raises done rfcs tr
         = (Return ((done + length rfcs) `mod` 51)%nat, tr')
    ∧ commits tr' = (commits tr + (done + length rfcs) `div` 51)%nat.
Proof.
  revert done tr. induction rfcs as [|rfc rfcs IH]; intros done tr Hread Hdone.
  - exists tr. cbn [index_loop length]. rewrite Nat.add_0_r.
    rewrite Nat.mod_small, Nat.div_small by lia.
    split; [done|lia].
  - apply Forall_cons in Hread as [[data Hdata] Hread].
    cbn [index_loop length]. unfold mbind, W_bind, wbind.
    rewrite (index_one_readable _ _ _ _ Hdata). cbv zeta.
    destruct (Nat.leb_spec 50 done) as [Hge|Hlt]; unfold Return; cbv beta iota.
    + assert (done = 50%nat) as -> by lia.
      edestruct (IH O) as (tr' & -> & Hc); [done|lia|].
      exists tr'.
      replace (50 + S (length rfcs))%nat with (length rfcs + 1 * 51)%nat by lia.
      rewrite Nat.Div0.mod_add, Nat.div_add by lia.
      split; [done|]. rewrite Hc, commits_app.
      change (commits [_; Commit; NewWriter]) with 1%nat.
      rewrite Nat.add_0_l. lia.
    + edestruct (IH (S done)) as (tr' & -> & Hc); [done|lia|].
      exists tr'.
      replace (S done + length rfcs)%nat with (done + S (length rfcs))%nat by lia.
      split; [done|]. rewrite Hc, commits_app.
      change (commits [_]) with 0%nat.
      replace (S done + length rfcs)%nat with (done + S (length rfcs))%nat by lia.
      lia.
Qed.

(** With [k] entries to index, all of them readable, the method commits
    [k / 51 + 1] times. *)
Lemma update_missing_indexes_commits self stored :
  Forall (λ rfc, ∃ data, read_file (number rfc) = Return data)
         (missing self stored) →
  ∃ tr, update_missing_indexes read_file commit_raises self stored []
        = (Return tt, tr)
    ∧ commits tr = (length (missing self stored) `div` 51 + 1)%nat.
Proof.
  intros Hread. unfold update_missing_indexes.
  unfold mbind, W_bind, wbind, do_call. cbn [app].
  destruct (index_loop_commits _ O [NewWriter] Hread) as (tr' & -> & Hc); [lia|].
  rewrite final_commit_swallows. eexists. split; [done|].
  rewrite commits_app, Hc. change (commits [Commit]) with 1%nat.
  change (commits [NewWriter]) with 0%nat. cbn [Nat.add]. lia.
Qed.
End Commits.

(** C7.  With 50 entries to index there is one commit, the last one, and
    it holds all 50 documents; with 51 the commit of the loop comes after
    the 51st document.  [done] counts from 0 and the commit is made when
    it has reached 50, so 51 documents go into each batch. *)
Theorem commit_batches_hold_51_documents :
  let run k := update_missing_indexes (λ _, Return (B "body")) (λ _, false)
                 (entries_upto k) [] [] in
  run 50%nat
  = (Return tt,
     [NewWriter] ++ map (upsert_of (u "body")) (entries_upto 50) ++ [Commit])
  ∧ run 51%nat
    = (Return tt,
       [NewWriter] ++ map (upsert_of (u "body")) (entries_upto 51)
       ++ [Commit; NewWriter; Commit]).
Proof. cbv zeta. split; by vm_compute. Qed.

(** ** [search] *)

Section SortFacts.
Context {A : Type} (key : A → Z).

Lemma insert_sorted_perm x l : insert_sorted (key_lt key) x l ≡ₚ x :: l.
Proof.
  induction l as [|y l IH]; [done|]. cbn [insert_sorted].
  destruct (key_lt key y x); [|done]. rewrite IH. apply Permutation_swap.
Qed.

Lemma list_sort_perm l : list_sort (key_lt key) l ≡ₚ l.
Proof.
  induction l as [|x l IH]; [done|]. cbn [list_sort foldr].
  rewrite insert_sorted_perm. by f_equiv.
Qed.

Lemma insert_sorted_sorted x l :
  StronglySorted (key_le key) l →
  StronglySorted (key_le key) (insert_sorted (key_lt key) x l).
Proof.
  induction 1 as [|y l Hl IH Hy]; cbn [insert_sorted].
  - by repeat constructor.
  - unfold key_lt at 1. destruct (Z.ltb_spec (key y) (key x)) as [Hlt|Hge].
    + constructor; [done|].
      rewrite insert_sorted_perm. constructor; [unfold key_le; lia|done].
    + constructor; [by constructor|].
      constructor; [done|].
      eapply Forall_impl; [exact Hy|]. unfold key_le. intros z Hz.
      cbn beta. lia.
Qed.

Lemma list_sort_sorted l : StronglySorted (key_le key) (list_sort (key_lt key) l).
Proof.
  induction l as [|x l IH]; [constructor|].
  cbn [list_sort foldr]. by apply insert_sorted_sorted.
Qed.

Lemma sorted_keys l :
  StronglySorted (key_le key) l → StronglySorted Z.le (map key l).
Proof.
  induction 1 as [|x l _ IH Hx]; [constructor|].
  cbn [map]. constructor; [done|]. by apply Forall_map.
Qed.
End SortFacts.

(** What [get_by_number] returns has the number asked for. *)
Lemma get_by_number_returns self int_number e :
  get_by_number self int_number = Return e →
  int_number = Return (number e) ∧ e ∈ self.
Proof.
  unfold get_by_number, Return, Raise. intros H.
  destruct (length self =? 0)%nat; [done|].
  destruct int_number as [[]|n]; try done.
  destruct (n <? 1); [done|]. case_bool_decide; [done|].
  destruct (last self) as [latest|]; [|done].
  destruct (number latest <? n); [done|].
  destruct (find _ self) as [rfc|] eqn:Hfind; [|done].
  injection H as ->. apply find_some in Hfind as [Hin Heq].
  apply Z.eqb_eq in Heq. subst n. split; [done|]. by apply list_elem_of_In.
Qed.

Section Search.
Variable hits : field → bytes → list Z.
Variable self : list RFCCacheEntry.

(** Either loop of [search]: what it has added when it returns, and
    which hit it raises for. *)
Lemma collect_outcome dedup ns rfcs results :
  map number results = rfcs →
  Forall (λ e, get_by_number self (Return (number e)) = Return e) results →
  match collect self dedup ns rfcs results with
  | inr (rfcs', results') =>
      map number results' = rfcs'
      ∧ Forall (λ e, get_by_number self (Return (number e)) = Return e) results'
      ∧ ∃ added,
          rfcs' = rfcs ++ added
          ∧ if dedup
            then NoDup added ∧ ∀ x, x ∈ added ↔ x ∈ ns ∧ x ∉ rfcs
            else added = ns
  | inl e =>
      ∃ n, n ∈ ns ∧ (dedup = true → n ∉ rfcs)
           ∧ get_by_number self (Return n) = Raise e
  end.
Proof.
  revert rfcs results.
  induction ns as [|n ns IH]; intros rfcs results Hmap Hres.
  - cbn [collect]. unfold Return. split; [done|]. split; [done|].
    exists []. rewrite app_nil_r. split; [done|].
    destruct dedup; [|done]. split; [constructor|].
    intros x. rewrite elem_of_nil. tauto.
  - cbn [collect].
    destruct (dedup && bool_decide (n ∈ rfcs)) eqn:Hskip.
    + apply andb_prop in Hskip as [-> Hin%bool_decide_eq_true].
      specialize (IH rfcs results Hmap Hres).
      destruct (collect self true ns rfcs results) as [e|[rfcs' results']].
      * destruct IH as (n' & Hn' & Hfresh & Hraise).
        exists n'. split; [by right|done].
      * destruct IH as (Hmap' & Hres' & added & -> & Hnd & Hmem).
        split; [done|]. split; [done|]. exists added. split; [done|].
        split; [done|]. intros x. rewrite Hmem, elem_of_cons.
        split; [tauto|]. intros [[->|?] ?]; tauto.
    + assert (dedup = true → n ∉ rfcs) as Hfresh.
      { intros ->. cbn [andb] in Hskip. by apply bool_decide_eq_false in Hskip. }
      destruct (get_by_number self (Return n)) as [e|e] eqn:He.
      * exists n. split; [by left|done].
      * destruct (get_by_number_returns _ _ _ He) as [[= Hnum] _].
        specialize (IH (rfcs ++ [n]) (results ++ [e])).
        destruct (collect self dedup ns (rfcs ++ [n]) (results ++ [e]))
          as [e'|[rfcs' results']].
        -- destruct IH as (n' & Hn' & Hfresh' & Hraise).
           { rewrite map_app, Hmap. cbn. by rewrite <- Hnum. }
           { apply Forall_app. split; [done|]. constructor; [|done].
             by rewrite <- Hnum. }
           exists n'. split; [by right|]. split; [|done].
           intros Hd Hin. apply (Hfresh' Hd), elem_of_app. by left.
        -- destruct IH as (Hmap' & Hres' & added & -> & Hadded).
           { rewrite map_app, Hmap. cbn. by rewrite <- Hnum. }
           { apply Forall_app. split; [done|]. constructor; [|done].
             by rewrite <- Hnum. }
           split; [done|]. split; [done|]. exists (n :: added).
           split; [by rewrite <- app_assoc|].
           destruct dedup; [|by rewrite Hadded].
           destruct Hadded as [Hnd Hmem]. split.
           ++ constructor; [|done]. intros Hin%Hmem.
              destruct Hin as [_ Hin]. apply Hin, elem_of_app. right. by left.
           ++ intros x. rewrite !elem_of_cons, Hmem, elem_of_app,
                list_elem_of_singleton.
              specialize (Hfresh eq_refl).
              destruct (decide (x = n)) as [->|]; tauto.
Qed.

(** C8.  What [search] does for any index, terms and flag.  When it
    returns, the numbers of the result ascend; they are the title hits,
    each as often as the index returns it, and, when [bodysearch] is
    set, the content hits that are no title hits, each once; every
    entry is what [get_by_number] returns for its number.  So the
    result holds no number twice exactly when the title hits hold none
    twice.  When it raises, it raises what [get_by_number] raised for
    one of these hits. *)
Theorem search_sorted_merge_of_hits
    (terms : list bytes) (bodysearch : bool) :
  let q := Py.join (B " ") (map Py.lower terms) in
  let body :=
    if bodysearch
    then remove_dups (filter (λ n, n ∉ hits Title q) (hits Content q))
    else [] in
  match search hits self terms bodysearch with
  | inr results =>
      StronglySorted Z.le (map number results)
      ∧ map number results ≡ₚ hits Title q ++ body
      ∧ (NoDup (map number results) ↔ NoDup (hits Title q))
      ∧ Forall (λ e, get_by_number self (Return (number e)) = Return e)
               results
  | inl e =>
      ∃ n, n ∈ hits Title q ++ body
           ∧ get_by_number self (Return n) = Raise e
  end.
Proof.
  intros q body. unfold search. fold q.
  assert (∀ l : list RFCCacheEntry,
            map number (list_sort entry_lt l) ≡ₚ map number l) as Hperm.
  { intros l. apply Permutation_map, (list_sort_perm number). }
  assert (∀ l : list RFCCacheEntry,
            StronglySorted Z.le (map number (list_sort entry_lt l))) as Hsorted.
  { intros l. apply sorted_keys, list_sort_sorted. }
  assert (NoDup (hits Title q ++ body) ↔ NoDup (hits Title q)) as Hnodup.
  { rewrite NoDup_app. split; [tauto|]. intros Hnd. split; [done|].
    subst body. destruct bodysearch; [|split; [by intros ? ? ?%elem_of_nil|constructor]].
    split; [|apply NoDup_remove_dups].
    intros x Hx [Hnot _]%elem_of_remove_dups%list_elem_of_filter. done. }
  pose proof (collect_outcome false (hits Title q) [] [] eq_refl (Forall_nil_2 _))
    as Htitle.
  destruct (collect self false (hits Title q) [] []) as [e|[rfcs results]].
  - destruct Htitle as (n & Hn & _ & Hraise). unfold Raise.
    exists n. split; [|done]. apply elem_of_app. by left.
  - destruct Htitle as (Hmap & Hres & added & -> & ->).
    cbn [app] in Hmap |- *. destruct bodysearch.
    + pose proof (collect_outcome true (hits Content q) _ _ Hmap Hres) as Hbody.
      destruct (collect self true (hits Content q) (hits Title q) results)
        as [e|[rfcs' results']].
      * destruct Hbody as (n & Hn & Hfresh & Hraise). unfold Raise.
        exists n. split; [|done]. apply elem_of_app. right.
        apply elem_of_remove_dups, list_elem_of_filter. auto.
      * destruct Hbody as (Hmap' & Hres' & added & -> & Hnd & Hmem).
        unfold Return.
        assert (added ≡ₚ body) as Hadded.
        { apply NoDup_Permutation; [done|apply NoDup_remove_dups|].
          intros x. subst body.
          rewrite Hmem, elem_of_remove_dups, list_elem_of_filter. tauto. }
        split; [done|]. split; [by rewrite Hperm, Hmap', Hadded|].
        split; [by rewrite Hperm, Hmap', Hadded|].
        by rewrite (list_sort_perm number).
    + unfold Return. subst body. rewrite app_nil_r in *.
      split; [done|]. split; [by rewrite Hperm, Hmap|].
      split; [by rewrite Hperm, Hmap|].
      by rewrite (list_sort_perm number).
Qed.
End Search.

Lemma search_sorted_merge_of_hits_witness :
  ∃ results,
    search example_hits (entries_upto 20) [B "Example"; B "TITLE"] true
    = Return results
    ∧ StronglySorted Z.le (map number results)
    ∧ NoDup (map number results)
    ∧ map number results = [1; 7; 15].
Proof.
  pose proof (search_sorted_merge_of_hits example_hits (entries_upto 20)
                [B "Example"; B "TITLE"] true) as H.
  cbv zeta in H.
  destruct (search example_hits (entries_upto 20)
              [B "Example"; B "TITLE"] true) as [e|results] eqn:Hs;
    [by vm_compute in Hs|].
  destruct H as (Hsorted & _ & Hnd & _).
  exists results. split; [done|]. split; [done|]. split.
  - apply Hnd, (bool_decide_unpack _). vm_compute. exact I.
  - vm_compute in Hs. by injection Hs as <-.
Defined.

(** C8, as stated, fails: the title loop of [search] has no test for
    numbers seen, so a number the title query returns twice is twice in
    the result, with and without [bodysearch]. *)
Lemma search_keeps_repeated_title_hit :
  search repeated_title_hits (entries_upto 5) [B "x"] false
  = Return [plain_entry 1; plain_entry 3; plain_entry 3]
  ∧ search repeated_title_hits (entries_upto 5) [B "x"] true
    = Return [plain_entry 1; plain_entry 2; plain_entry 3; plain_entry 3]
  ∧ ¬ NoDup (map number [plain_entry 1; plain_entry 3; plain_entry 3]).
Proof.
  split; [by vm_compute|]. split; [by vm_compute|].
  cbn [map number plain_entry]. intros Hnd.
  apply NoDup_cons in Hnd as [_ Hnd]. apply NoDup_cons in Hnd as [Hnot _].
  apply Hnot. by left.
Qed.

(** ** The pattern of a numbered line *)

Lemma run_star_cls {C} (code_of : C → N) whole p s g k :
  run code_of whole (Star (Cls p)) s g k
  = star_cls code_of p (λ s', k s' g) s.
Proof.
  cbn [run].
  match goal with |- ?f (length s) s g = _ => set (loop := f) end.
  assert (∀ fuel t, (length t ≤ fuel)%nat →
            loop fuel t g = star_cls code_of p (λ s', k s' g) t) as H.
  { induction fuel as [|fuel IH]; intros t Hlen.
    - destruct t; [done|cbn in Hlen; lia].
    - destruct t as [|c t]; [done|]. cbn in Hlen.
      subst loop. cbn [star_cls].
      destruct (p (code_of c)) eqn:Hp; [|done].
      change (length (c :: t)) with (S (length t)).
      destruct (Nat.ltb_spec (length t) (S (length t))); [|lia].
      rewrite IH by lia. done. }
  by apply H.
Qed.

Section RunEquations.
Context {C : Type} (code_of : C → N) (whole : list C).
Implicit Types (s : list C) (g : groups (C:=C)).

Lemma run_cat r1 r2 s g k :
  run code_of whole (Cat r1 r2) s g k
  = run code_of whole r1 s g (λ s' g', run code_of whole r2 s' g' k).
Proof. reflexivity. Qed.

Lemma run_grp name r s g k :
  run code_of whole (Grp name r) s g k
  = run code_of whole r s g
      (λ s' g', k s' ((name, take (length s - length s') s) :: g')).
Proof. reflexivity. Qed.

Lemma run_cls_cons p c s g k :
  p (code_of c) = true →
  run code_of whole (Cls p) (c :: s) g k = k s g.
Proof. intros Hp. cbn [run]. by rewrite Hp. Qed.

Lemma run_bol_start g k :
  run code_of whole Bol whole g k = k whole g.
Proof. cbn [run]. by rewrite Nat.eqb_refl. Qed.

Lemma run_eol_nil g k : run code_of whole Eol [] g k = k [] g.
Proof. reflexivity. Qed.

(** The greedy choice of a star succeeds when what follows accepts it. *)
Lemma star_cls_greedy p (k : list C → option groups) xs rest res :
  Forall (λ c, p (code_of c) = true) xs →
  match rest with
  | c :: _ => p (code_of c) = false
  | [] => True
  end →
  k rest = Some res →
  star_cls code_of p k (xs ++ rest) = Some res.
Proof.
  intros Hxs Hrest Hk. induction Hxs as [|x xs Hx _ IH]; cbn [app star_cls].
  - destruct rest as [|c rest]; cbn [star_cls]; [done|]. by rewrite Hrest.
  - by rewrite Hx, IH.
Qed.

(** [r+] over a run of the class, taken whole. *)
Lemma run_plus_cls_greedy p x xs rest g k res :
  Forall (λ c, p (code_of c) = true) (x :: xs) →
  match rest with
  | c :: _ => p (code_of c) = false
  | [] => True
  end →
  k rest g = Some res →
  run code_of whole (Plus (Cls p)) (x :: xs ++ rest) g k = Some res.
Proof.
  intros [Hx Hxs]%Forall_cons Hrest Hk. unfold Plus.
  rewrite run_cat, (run_cls_cons _ _ _ _ _ Hx), run_star_cls.
  by apply star_cls_greedy.
Qed.
End RunEquations.

Lemma take_app_length' {A} (l k : list A) : take (length (l ++ k) - length k) (l ++ k) = l.
Proof.
  rewrite length_app. replace (length l + length k - length k)%nat with (length l) by lia.
  by rewrite take_app_length.
Qed.

(** X1.  A line made of digits, then blanks, then text that starts with
    a character that is no blank (and no digit when there are no
    blanks) and holds no newline matches the pattern of a numbered line:
    the first group is the digits, the second the text without the
    blanks before it. *)
Theorem index_line_match (ds ws t : bytes) :
  ds ≠ [] → Forall is_digit ds → Forall is_space ws →
  t ≠ [] → Forall (λ c, code c ≠ 10%N) t →
  match t with c :: _ => Py.isspace (code c) = false | [] => True end →
  (ws = [] → match t with c :: _ => Py.isdigit (code c) = false | [] => True end) →
  rmatch code RE_RFC_INDEX_LINE (ds ++ ws ++ t)
  = Some [("2"%string, t); ("1"%string, ds)].
Proof.
  intros Hds Hdig Hsp Ht Hnl Hhead Hhead'.
  destruct ds as [|d ds]; [done|]. destruct t as [|c t]; [done|].
  unfold rmatch, RE_RFC_INDEX_LINE. cbn [Seq fold_left].
  rewrite !run_cat, run_bol_start, run_grp.
  cbn [app].
  apply run_plus_cls_greedy; [done| |].
  { destruct ws as [|w ws]; cbn [app].
    - by apply Hhead'.
    - apply Forall_cons in Hsp as [Hw _]. unfold is_space in Hw.
      destruct (Py.isdigit (code w)) eqn:E; [|done].
      apply digit_not_space in E. congruence. }
  change (d :: ds ++ ws ++ c :: t) with ((d :: ds) ++ (ws ++ c :: t)).
  rewrite take_app_length'.
  unfold Space. rewrite run_star_cls.
  apply star_cls_greedy; [done|done|].
  rewrite run_grp. unfold Dot.
  rewrite <- (app_nil_r t) at 2.
  apply run_plus_cls_greedy.
  - eapply Forall_impl; [exact Hnl|]. intros x Hx. cbn beta.
    by apply negb_true_iff, N.eqb_neq.
  - done.
  - rewrite run_eol_nil. change (length []) with 0%nat.
    by rewrite Nat.sub_0_r, firstn_all.
Qed.

Lemma index_line_match_witness :
  rmatch code RE_RFC_INDEX_LINE (B "1000  An Example Protocol.")
  = Some [("2"%string, B "An Example Protocol."); ("1"%string, B "1000")].
Proof.
  apply (index_line_match (B "1000") (B "  ") (B "An Example Protocol.")).
  - discriminate.
  - vm_compute. repeat constructor.
  - vm_compute. repeat constructor.
  - discriminate.
  - vm_compute. repeat constructor; discriminate.
  - reflexivity.
  - discriminate.
Defined.

(** A star that cannot stop at the end of a run gives back one
    character. *)
Lemma star_cls_gives_back_one {C} (code_of : C → N) p
    (k : list C → option groups) xs x res :
  Forall (λ c, p (code_of c) = true) (xs ++ [x]) →
  k [] = None →
  k [x] = Some res →
  star_cls code_of p k (xs ++ [x]) = Some res.
Proof.
  intros Hall Hnil Hone. induction xs as [|y xs IH]; cbn [app star_cls].
  - apply Forall_cons in Hall as [-> _]. by rewrite Hnil.
  - apply Forall_cons in Hall as [-> Hall]. by rewrite IH.
Qed.

(** X2.  A line that is digits and nothing else: of two digits or more,
    the last digit is taken as the text and the digits before it as the
    number; a line of one character does not match. *)
Theorem index_line_of_digits_only (ds : bytes) (d c : ascii) :
  ds ≠ [] → Forall is_digit (ds ++ [d]) →
  rmatch code RE_RFC_INDEX_LINE (ds ++ [d])
  = Some [("2"%string, [d]); ("1"%string, ds)]
  ∧ rmatch code RE_RFC_INDEX_LINE [c] = None.
Proof.
  intros Hds Hdig. split.
  - destruct ds as [|d0 ds]; [done|].
    assert (Py.isdigit (code d) = true) as Hd.
    { apply Forall_app in Hdig as [_ Hd]. by apply Forall_inv in Hd. }
    unfold rmatch, RE_RFC_INDEX_LINE. cbn [Seq fold_left].
    rewrite !run_cat, run_bol_start, run_grp. unfold Plus at 1, Digit.
    rewrite run_cat. cbn [app].
    apply Forall_cons in Hdig as [Hd0 Hdig].
    rewrite (run_cls_cons _ _ _ _ _ _ _ Hd0), run_star_cls.
    apply star_cls_gives_back_one; [done| |].
    + unfold Space. rewrite run_star_cls. cbn [star_cls].
      rewrite run_grp. reflexivity.
    + unfold Space. rewrite run_star_cls. cbn [star_cls].
      rewrite (digit_not_space _ Hd).
      rewrite run_grp. unfold Plus, Dot. rewrite run_cat.
      assert (negb (code d =? 10)%N = true) as Hnl.
      { apply negb_true_iff, N.eqb_neq. intros Heq.
        unfold Py.isdigit in Hd. rewrite Heq in Hd. done. }
      rewrite (run_cls_cons _ _ _ _ _ _ _ Hnl), run_star_cls. cbn [star_cls].
      rewrite run_eol_nil.
      change (d0 :: ds ++ [d]) with ((d0 :: ds) ++ [d]).
      by rewrite take_app_length'.
  - unfold rmatch, RE_RFC_INDEX_LINE. cbn [Seq fold_left].
    rewrite !run_cat, run_bol_start, run_grp. unfold Plus at 1, Digit.
    rewrite run_cat. cbn [run].
    destruct (Py.isdigit (code c)); reflexivity.
Qed.

Lemma index_line_of_digits_only_witness :
  rmatch code RE_RFC_INDEX_LINE (B "0014")
  = Some [("2"%string, B "4"); ("1"%string, B "001")]
  ∧ rmatch code RE_RFC_INDEX_LINE (B "7") = None.
Proof.
  apply (index_line_of_digits_only (B "001") "4" "7").
  - discriminate.
  - vm_compute. repeat constructor.
Defined.

(** ** The loop of [load]: header block, records, errors *)

Lemma skip_line_in_header line :
  Py.startswith Ascii.eqb line (B "~~~") = false →
  skip_line true line = Some true.
Proof.
  intros H. unfold skip_line. rewrite H. cbn [orb].
  by case_bool_decide.
Qed.

Lemma skip_line_tilde hdr line :
  Py.startswith Ascii.eqb line (B "~~~") = true →
  skip_line hdr line = Some (negb hdr).
Proof.
  intros H. unfold skip_line. rewrite H.
  case_bool_decide as Hnil; [|done]. by rewrite Hnil in H.
Qed.

Lemma load_lines_in_header v lines st :
  header v = true →
  Forall (λ raw, ¬ is_tilde raw) lines →
  load_lines v lines st = (Return v, st).
Proof.
  intros Hhdr Hall. induction Hall as [|raw lines Hraw _ IH]; [done|].
  cbn [load_lines]. unfold load_line. rewrite Hhdr.
  rewrite skip_line_in_header by (by apply not_true_is_false).
  unfold mbind, M_bind, bind, ret, Return. cbv beta iota.
  destruct v as [hdr r t]. cbn in Hhdr. subst hdr. exact IH.
Qed.

(** X3.  Outside the header, a [~~~] line, lines that are not [~~~]
    lines and a second [~~~] line are passed over together, numbered
    lines among them too: the loop goes on with the same variables and
    the same entries as if the block were not there. *)
Theorem load_skips_header_block
    (v : loop_vars) (st : list RFCCacheEntry)
    (opening closing : bytes) (body rest : list bytes) :
  header v = false →
  is_tilde opening →
  is_tilde closing →
  Forall (λ raw, ¬ is_tilde raw) body →
  load_lines v (opening :: body ++ closing :: rest) st = load_lines v rest st.
Proof.
  intros Hhdr Hopen Hclose Hbody. destruct v as [hdr r t]. cbn in Hhdr. subst hdr.
  cbn [load_lines]. unfold load_line at 1. cbn [header rfc text].
  rewrite (skip_line_tilde _ _ Hopen).
  unfold mbind, M_bind, bind, ret, Return. cbv beta iota.
  rewrite load_lines_app, load_lines_in_header by done.
  unfold Return. cbv beta iota.
  cbn [load_lines]. unfold load_line at 1. cbn [header rfc text].
  rewrite (skip_line_tilde _ _ Hclose).
  unfold mbind, M_bind, bind, ret, Return. by cbv beta iota.
Qed.

Lemma load_skips_header_block_witness :
  load_lines init_vars
    [B "~~~~~~"; B "0001 Not a record."; B "~~~"; B "0002 A record."] []
  = load_lines init_vars [B "0002 A record."] [].
Proof.
  apply (load_skips_header_block init_vars [] (B "~~~~~~") (B "~~~")
           [B "0001 Not a record."] [B "0002 A record."]).
  - reflexivity.
  - vm_compute. reflexivity.
  - vm_compute. reflexivity.
  - repeat constructor. vm_compute. discriminate.
Defined.

Lemma load_line_continuation n t raw st :
  n ≠ 0 →
  is_continuation raw →
  load_line (mkVars false (Some n) (Some t)) raw st
  = (Return (mkVars false (Some n)
               (Some (t ++ B " " ++ Py.strip bspace (Py.rstrip bspace raw)))),
     st).
Proof.
  intros Hn [Hskip Hre]. unfold load_line. cbn [header rfc text].
  rewrite Hskip, Hre. cbn [falsy format_str].
  by destruct (Z.eqb_spec n 0).
Qed.

Lemma load_lines_continuations n t conts st :
  n ≠ 0 →
  Forall is_continuation conts →
  load_lines (mkVars false (Some n) (Some t)) conts st
  = (Return (mkVars false (Some n) (Some (joined t conts))), st).
Proof.
  intros Hn Hall. revert t.
  induction Hall as [|raw conts Hraw _ IH]; intros t; [done|].
  cbn [load_lines]. unfold mbind, M_bind, bind.
  rewrite load_line_continuation by done. unfold Return. cbv beta iota.
  apply IH.
Qed.

(** What a numbered line does outside the header: the record before it
    is finalized, then its own number and text are taken. *)
Lemma load_line_numbered v raw m v' st :
  header v = false →
  rmatch code RE_RFC_INDEX_LINE (Py.rstrip bspace raw) = Some m →
  vars_after m = Some v' →
  load_line v raw st
  = match finalize v st with
    | (inl e, st') => (Raise e, st')
    | (inr _, st') => (Return v', st')
    end.
Proof.
  intros Hhdr Hm Hv'. unfold load_line.
  rewrite (skip_line_numbered _ _ _ Hm), Hm, Hhdr.
  unfold mbind, M_bind, bind. destruct (finalize v st) as [[e|[]] st']; [done|].
  unfold vars_after in Hv'.
  destruct (group m "1"), (group m "2"); try done.
  case_bool_decide; by simplify_eq.
Qed.

(** X4.  A record of a number that is not 0 and not in [RFC_SKIPPED],
    its continuation lines and the numbered line after them: the text
    of the record is its first text and the continuation lines, each
    stripped, joined by single blanks, and when the entry can be built
    from it, it is appended as the index's last entry. *)
Theorem load_record_with_continuations
    (n : Z) (t : bytes) (conts : list bytes) (next : bytes)
    (m : groups) (v' : loop_vars) (e : RFCCacheEntry)
    (st : list RFCCacheEntry) :
  n ≠ 0 →
  n ∉ RFC_SKIPPED →
  Forall is_continuation conts →
  rmatch code RE_RFC_INDEX_LINE (Py.rstrip bspace next) = Some m →
  vars_after m = Some v' →
  new_entry n (Some (joined t conts)) = Return e →
  load_lines (mkVars false (Some n) (Some t)) (conts ++ [next]) st
  = (Return v', st ++ [e])
  ∧ number e = n.
Proof.
  intros Hn Hskip Hconts Hm Hv' He. split; [|by eapply new_entry_number].
  rewrite load_lines_app, load_lines_continuations by done.
  unfold Return at 1. cbv beta iota. cbn [load_lines].
  unfold mbind, M_bind, bind.
  rewrite (load_line_numbered _ _ m v') by done.
  unfold finalize. cbn [rfc text].
  rewrite bool_decide_eq_false_2 by done. rewrite He.
  unfold Return, append. by cbv beta iota.
Qed.

Lemma load_record_with_continuations_witness :
  ∃ e,
    load_lines
      (mkVars false (Some 1000)
         (Some (B "An Example Protocol. June 2020. (Informational)")))
      [B "    (additional notes)"; B "1001 Next."] []
    = (Return (mkVars false (Some 1001) (Some (B "Next."))), [e])
    ∧ number e = 1000
    ∧ description e
      = u "An Example Protocol. June 2020. (Informational) (additional notes)".
Proof.
  eexists. 
  match goal with
  | |- ?run = (_, [?e]) ∧ _ ∧ _ =>
      destruct (load_record_with_continuations 1000
                  (B "An Example Protocol. June 2020. (Informational)")
                  [B "    (additional notes)"] (B "1001 Next.")
                  [("2"%string, B "Next."); ("1"%string, B "1001")]
                  (mkVars false (Some 1001) (Some (B "Next."))) e [])
        as [Hrun Hnum]
  end.
  - discriminate.
  - unfold RFC_SKIPPED. rewrite !elem_of_cons, elem_of_nil. lia.
  - repeat constructor; vm_compute; reflexivity.
  - vm_compute. reflexivity.
  - vm_compute. reflexivity.
  - vm_compute. reflexivity.
  - split; [exact Hrun|]. split; [exact Hnum|]. vm_compute. reflexivity.
Defined.

(** X5.  A record numbered 0 cannot be continued: [not rfc] holds for 0
    as it does for [None].  When the file starts with a numbered line
    whose number is 0 and the next line does not match the pattern,
    [load] raises 'Unsupported file format.' and the index is empty. *)
Theorem load_record_zero_not_continued
    (content : bytes) (self : list RFCCacheEntry)
    (first raw : bytes) (rest : list bytes) (m : groups) (g1 g2 : bytes) :
  readlines content = first :: raw :: rest →
  rmatch code RE_RFC_INDEX_LINE (Py.rstrip bspace first) = Some m →
  group m "1" = Some g1 →
  group m "2" = Some g2 →
  Py.digits_value (map code g1) = 0 →
  is_continuation raw →
  load (File content) self = (Raise (RFCCacheError UnsupportedFormat), []).
Proof.
  intros Hlines Hm Hg1 Hg2 Hzero [Hskip Hre].
  rewrite load_file, Hlines. cbn [load_lines]. unfold mbind, M_bind, bind.
  assert (∃ t, load_line init_vars first []
               = (Return (mkVars false t.1 t.2), []) ∧ falsy t.1 = true)
    as ([r t] & -> & Hfalsy).
  { destruct (vars_after m) as [v'|] eqn:Hv'.
    - rewrite (load_line_numbered _ _ m v') by done.
      unfold vars_after in Hv'. rewrite Hg1, Hg2, Hzero in Hv'.
      case_bool_decide; simplify_eq.
      + by exists (None, None).
      + by exists (Some 0, Some g2).
    - unfold vars_after in Hv'. by rewrite Hg1, Hg2 in Hv'. }
  unfold Return. cbv beta iota. unfold load_line. cbn [header rfc text fst snd] in *.
  by rewrite Hskip, Hre, Hfalsy.
Qed.

Lemma load_record_zero_not_continued_witness :
  load (File (B "0000 Zero.
    more of zero
")) (entries_upto 2)
  = (Raise (RFCCacheError UnsupportedFormat), []).
Proof.
  apply (load_record_zero_not_continued _ (entries_upto 2)
           (B "0000 Zero." ++ [newline]) (B "    more of zero" ++ [newline]) []
           [("2"%string, B "Zero."); ("1"%string, B "0000")]
           (B "0000") (B "Zero.")).
  - vm_compute. reflexivity.
  - vm_compute. reflexivity.
  - reflexivity.
  - reflexivity.
  - reflexivity.
  - split; vm_compute; reflexivity.
Defined.

(** X6.  Loading twice gives what loading once gives: [load] starts by
    emptying the index (or, with no file, raises before touching it), so
    its outcome does not depend on the entries held before. *)
Theorem load_twice (f : index_file) (self : list RFCCacheEntry) :
  load f (load f self).2 = load f self
  ∧ (f ≠ NoFile → ∀ other, load f other = load f self).
Proof.
  split.
  - destruct f as [| |content]; [done|done|]. by rewrite !load_file.
  - intros Hf other. destruct f as [| |content]; [done|done|].
    by rewrite !load_file.
Qed.

Lemma load_twice_witness :
  load (File two_records) (load (File two_records) (entries_upto 3)).2
  = load (File two_records) (entries_upto 3)
  ∧ (∀ other, load (File two_records) other
              = load (File two_records) (entries_upto 3)).
Proof.
  destruct (load_twice (File two_records) (entries_upto 3)) as [H1 H2].
  split; [exact H1|]. apply H2. discriminate.
Defined.

(** ** Errors of the constructor *)

Lemma month_year_raises s e : Strptime.month_year s = Raise e → e = ValueError.
Proof.
  unfold Strptime.month_year, Raise, Return. intros H.
  repeat (match type of H with
          | (match ?x with _ => _ end) = _ => destruct x eqn:?
          | (if ?x then _ else _) = _ => destruct x eqn:?
          end); by simplify_eq.
Qed.

Lemma decode_fuel_raises fuel s e :
  Utf8.decode_fuel fuel s = Raise e → e = UnicodeDecodeError.
Proof.
  revert s. induction fuel as [|fuel IH]; intros s H; [done|].
  cbn [Utf8.decode_fuel] in H. unfold Raise, Return in H.
  repeat (match type of H with
          | (match ?x with _ => _ end) = _ => destruct x eqn:?
          | (if ?x then _ else _) = _ => destruct x eqn:?
          end); simplify_eq; try done; by eapply IH.
Qed.

(** The constructor of an entry raises [UnicodeDecodeError] (the
    description is not UTF-8) or [ValueError] (the date of a description
    that matches is not a month and a year of four digits). *)
Lemma new_entry_raises (n : Z) (d : bytes) (e : exn) :
  new_entry n (Some d) = Raise e →
  e = UnicodeDecodeError ∨ e = ValueError.
Proof.
  unfold new_entry, Raise, Return. intros H.
  destruct (Utf8.decode d) as [e'|ud] eqn:Hdec.
  { left. injection H as <-. by eapply decode_fuel_raises. }
  destruct (rmatch id RE_RFC_DESCRIPTION ud) as [m|]; [|done].
  destruct (group m "title"), (group m "date") as [dt|], (group m "flags");
    try done.
  destruct (Strptime.month_year dt) as [e'|] eqn:Hdate; [|done].
  right. injection H as <-. by eapply month_year_raises.
Qed.

(** X7.  When the constructor raises for the record that a numbered line
    ends, [load] stops there with that exception, which is
    [UnicodeDecodeError] or [ValueError] and never [RFCCacheError]: the
    [except RFCCacheError] around the constructor catches nothing, and
    one such record ends the whole load, the entries before it staying
    in the index. *)
Theorem load_stops_on_constructor_error
    (n : Z) (t next : bytes) (rest : list bytes) (m : groups)
    (st : list RFCCacheEntry) (e : exn) :
  n ∉ RFC_SKIPPED →
  new_entry n (Some t) = Raise e →
  rmatch code RE_RFC_INDEX_LINE (Py.rstrip bspace next) = Some m →
  load_lines (mkVars false (Some n) (Some t)) (next :: rest) st = (Raise e, st)
  ∧ (e = UnicodeDecodeError ∨ e = ValueError).
Proof.
  intros Hskip He Hm. pose proof (new_entry_raises _ _ _ He) as Hkind.
  split; [|done].
  cbn [load_lines]. unfold load_line. cbn [header].
  rewrite (skip_line_numbered _ _ _ Hm), Hm.
  unfold mbind, M_bind, bind, finalize. cbn [rfc text].
  rewrite bool_decide_eq_false_2 by done. rewrite He.
  by destruct Hkind as [-> | ->].
Qed.

Lemma load_stops_on_constructor_error_witness :
  load_lines
    (mkVars false (Some 1) (Some (B "A Title. Foo 1999. (Status: UNKNOWN)")))
    [B "0002 Next."; B "0003 More."] (entries_upto 2)
  = (Raise ValueError, entries_upto 2).
Proof.
  apply (load_stops_on_constructor_error 1
           (B "A Title. Foo 1999. (Status: UNKNOWN)") (B "0002 Next.")
           [B "0003 More."]
           [("2"%string, B "Next."); ("1"%string, B "0002")]
           (entries_upto 2) ValueError).
  - unfold RFC_SKIPPED. rewrite !elem_of_cons, elem_of_nil. lia.
  - vm_compute. reflexivity.
  - vm_compute. reflexivity.
Defined.

(** ** What [get_by_number] returns and raises *)

(** X8.  What [get_by_number] returns is an entry of the index, the
    first one with the number asked for; that number is at least 1, is
    not in [RFC_SKIPPED] and is not above the number of the last
    entry. *)
Theorem get_by_number_result
    (self : list RFCCacheEntry) (int_number : result Z) (e : RFCCacheEntry) :
  get_by_number self int_number = Return e →
  int_number = Return (number e)
  ∧ 1 ≤ number e
  ∧ (number e ∉ RFC_SKIPPED)
  ∧ (∃ latest, last self = Some latest ∧ number e ≤ number latest)
  ∧ (∃ before after, self = before ++ e :: after
       ∧ Forall (λ rfc, number rfc ≠ number e) before).
Proof.
  unfold get_by_number, Return, Raise. intros H.
  destruct (length self =? 0)%nat; [done|].
  destruct int_number as [[]|n]; try done.
  destruct (Z.ltb_spec n 1); [done|]. case_bool_decide as Hskip; [done|].
  destruct (last self) as [latest|]; [|done].
  destruct (Z.ltb_spec (number latest) n); [done|].
  destruct (find _ self) as [rfc|] eqn:Hfind; [|done].
  injection H as ->.
  assert (number e = n ∧ ∃ before after, self = before ++ e :: after
            ∧ Forall (λ rfc, number rfc ≠ n) before) as [Hn Hfirst].
  { clear -Hfind. induction self as [|x self IH]; [done|].
    cbn [find] in Hfind. destruct (Z.eqb_spec (number x) n) as [Heq|Hne].
    - injection Hfind as ->. split; [done|]. by exists [], self.
    - destruct (IH Hfind) as [Hn (before & after & -> & Hall)].
      split; [done|]. exists (x :: before), after. split; [done|].
      by constructor. }
  subst n. repeat split; try done. by exists latest.
Qed.

Lemma get_by_number_result_witness :
  ∃ e, get_by_number (entries_upto 5) (Return 3) = Return e
       ∧ number e = 3
       ∧ (number e ∉ RFC_SKIPPED).
Proof.
  exists (plain_entry 3).
  assert (get_by_number (entries_upto 5) (Return 3) = Return (plain_entry 3))
    as H by (vm_compute; reflexivity).
  split; [exact H|].
  destruct (get_by_number_result _ _ _ H) as (_ & _ & Hskip & _).
  split; [reflexivity|exact Hskip].
Defined.

Lemma find_unique_number (self : list RFCCacheEntry) e :
  e ∈ self →
  StronglySorted (λ a b, number a < number b) self →
  find (λ rfc, number rfc =? number e) self = Some e.
Proof.
  intros Hin Hsorted. induction Hsorted as [|x self _ IH Hx]; [by apply elem_of_nil in Hin|].
  cbn [find]. apply elem_of_cons in Hin as [->|Hin].
  - by rewrite Z.eqb_refl.
  - rewrite Forall_forall in Hx. specialize (Hx e Hin). cbn beta in Hx.
    destruct (Z.eqb_spec (number x) (number e)); [lia|]. by apply IH.
Qed.

Lemma last_of_sorted (self : list RFCCacheEntry) e latest :
  e ∈ self →
  last self = Some latest →
  StronglySorted (λ a b, number a < number b) self →
  number e ≤ number latest.
Proof.
  intros Hin Hlast Hsorted.
  induction Hsorted as [|x self _ IH Hx]; [by apply elem_of_nil in Hin|].
  destruct self as [|y self].
  - apply list_elem_of_singleton in Hin as ->. cbn in Hlast. by simplify_eq.
  - rewrite last_cons_cons in Hlast.
    apply elem_of_cons in Hin as [->|Hin]; [|by apply IH].
    assert (latest ∈ y :: self) as Hlatest.
    { apply last_Some in Hlast as [l' ->]. apply elem_of_app. right.
      by apply list_elem_of_singleton. }
    rewrite Forall_forall in Hx. specialize (Hx latest Hlatest). cbn beta in Hx.
    lia.
Qed.

(** X9.  In an index whose numbers ascend strictly, as they do when the
    index file is in order, and are at least 1 and outside
    [RFC_SKIPPED], every entry is what [get_by_number] returns for its
    own number. *)
Theorem get_by_number_finds_every_entry
    (self : list RFCCacheEntry) (e : RFCCacheEntry) :
  StronglySorted (λ a b, number a < number b) self →
  Forall (λ rfc, 1 ≤ number rfc ∧ number rfc ∉ RFC_SKIPPED) self →
  e ∈ self →
  get_by_number self (Return (number e)) = Return e.
Proof.
  intros Hsorted Hvalid Hin.
  rewrite Forall_forall in Hvalid. destruct (Hvalid e Hin) as [Hpos Hskip].
  destruct (last_nonempty self) as [latest Hlast].
  { intros ->. by apply elem_of_nil in Hin. }
  rewrite (get_by_number_checked _ _ _ Hlast Hpos).
  rewrite bool_decide_eq_false_2 by done.
  pose proof (last_of_sorted _ _ _ Hin Hlast Hsorted).
  destruct (Z.ltb_spec (number latest) (number e)); [lia|].
  by rewrite find_unique_number.
Qed.

Lemma get_by_number_finds_every_entry_witness :
  get_by_number (entries_upto 5) (Return 3) = Return (plain_entry 3).
Proof.
  apply (get_by_number_finds_every_entry (entries_upto 5) (plain_entry 3)).
  - vm_compute. repeat constructor.
  - unfold entries_upto. cbn [seq map].
    repeat (constructor;
            [split; cbn; [lia|];
             unfold RFC_SKIPPED; rewrite !elem_of_cons, elem_of_nil; lia|]).
    constructor.
  - unfold entries_upto. cbn [seq map]. do 2 right. left.
Defined.

(** X10.  The test for 'not yet cached' looks at the last entry only: an
    entry of the index whose number is above the number of the last
    entry is not returned, the request for its number raises
    'Requested n, latest cached RFC m'. *)
Theorem get_by_number_beyond_last
    (self : list RFCCacheEntry) (e latest : RFCCacheEntry) :
  e ∈ self →
  last self = Some latest →
  number latest < number e →
  1 ≤ number e →
  number e ∉ RFC_SKIPPED →
  get_by_number self (Return (number e))
  = Raise (RFCCacheError (NotYetCached (number e) (number latest))).
Proof.
  intros _ Hlast Hlt Hpos Hskip.
  rewrite (get_by_number_checked _ _ _ Hlast Hpos).
  rewrite bool_decide_eq_false_2 by done.
  by destruct (Z.ltb_spec (number latest) (number e)); [|lia].
Qed.

Lemma get_by_number_beyond_last_witness :
  get_by_number [plain_entry 1; plain_entry 7; plain_entry 3] (Return 7)
  = Raise (RFCCacheError (NotYetCached 7 3)).
Proof.
  apply (get_by_number_beyond_last
           [plain_entry 1; plain_entry 7; plain_entry 3]
           (plain_entry 7) (plain_entry 3)).
  - right. left.
  - reflexivity.
  - cbn. lia.
  - cbn. lia.
  - cbn. unfold RFC_SKIPPED. rewrite !elem_of_cons, elem_of_nil. lia.
Defined.

(** X11.  A number that is at least 1, outside [RFC_SKIPPED], not above
    the number of the last entry and the number of no entry raises
    'not found from local cache'; 'Not Issued.' numbers of the index
    file are such numbers. *)
Theorem get_by_number_not_found
    (self : list RFCCacheEntry) (latest : RFCCacheEntry) (n : Z) :
  last self = Some latest →
  1 ≤ n →
  n ∉ RFC_SKIPPED →
  n ≤ number latest →
  Forall (λ rfc, number rfc ≠ n) self →
  get_by_number self (Return n) = Raise (RFCCacheError (NotFound n)).
Proof.
  intros Hlast Hpos Hskip Hle Hnone.
  rewrite (get_by_number_checked _ _ _ Hlast Hpos).
  rewrite bool_decide_eq_false_2 by done.
  destruct (Z.ltb_spec (number latest) n); [lia|].
  destruct (find _ self) as [rfc|] eqn:Hfind; [|done].
  apply find_some in Hfind as [Hin Heq%Z.eqb_eq].
  rewrite Forall_forall in Hnone. by destruct (Hnone rfc (proj2 (list_elem_of_In _ _) Hin)).
Qed.

Lemma get_by_number_not_found_witness :
  get_by_number [plain_entry 13; plain_entry 15] (Return 14)
  = Raise (RFCCacheError (NotFound 14)).
Proof.
  apply (get_by_number_not_found [plain_entry 13; plain_entry 15]
           (plain_entry 15) 14).
  - reflexivity.
  - lia.
  - unfold RFC_SKIPPED. rewrite !elem_of_cons, elem_of_nil. lia.
  - cbn. lia.
  - repeat constructor; cbn; lia.
Defined.

(** ** The documents [update_missing_indexes] hands over *)

Lemma upserts_app tr1 tr2 : upserts (tr1 ++ tr2) = upserts tr1 ++ upserts tr2.
Proof.
  induction tr1 as [|[d| |] tr1 IH]; cbn [app upserts]; [done| |done|done].
  by rewrite IH.
Qed.

(** The entries to index are those whose number the search index does
    not hold. *)
Lemma missing_filter self stored :
  missing self stored = filter (λ rfc, number rfc ∉ stored) self.
Proof.
  unfold missing, get_indexed. induction self as [|x self IH]; [done|].
  rewrite !filter_cons, IH.
  assert (number x ∉ list_sort Z.ltb stored ↔ number x ∉ stored) as Hiff.
  { by rewrite (list_sort_perm (A:=Z) id stored). }
  repeat case_decide; try tauto; done.
Qed.

Section Indexing.
Variable read_file : Z → result bytes.
Variable commit_raises : list call → bool.

(** One turn of the loop, for a file that can be read. *)
Lemma index_one_step cnt rfc data tr :
  read_file (number rfc) = Return data →
  index_one read_file commit_raises cnt rfc tr
  = let tr1 := tr ++ [UpdateDocument (document_of data rfc)] in
    if (50 <=? cnt)%nat
    then if commit_raises tr1
         then (Raise IndexingError, tr1 ++ [Commit])
         else (Return O, tr1 ++ [Commit; NewWriter])
    else (Return (S cnt), tr1).
Proof.
  intros Hdata. unfold index_one. rewrite Hdata. unfold Return.
  unfold CACHE_COMMIT_INTERVAL, mbind, W_bind, wbind, do_call.
  destruct (50 <=? cnt)%nat; [|done].
  unfold commit. cbv zeta. unfold document_of.
  destruct (commit_raises _); [done|].
  cbn. by rewrite <- !app_assoc.
Qed.

(** Whatever the loop returns, it has handed over the documents of the
    entries it went through, in order, and nothing else. *)
Lemma index_loop_upserts contents rfcs cnt tr r tr' :
  Forall (λ rfc, read_file (number rfc) = Return (contents (number rfc))) rfcs →
  index_loop read_file commit_raises cnt rfcs tr = (Return r, tr') →
  upserts tr'
  = upserts tr ++ map (λ rfc, document_of (contents (number rfc)) rfc) rfcs.
Proof.
  intros Hread. revert cnt tr.
  induction Hread as [|rfc rfcs Hdata _ IH]; intros cnt tr Hloop.
  - cbn in Hloop. unfold wret, Return in Hloop. simplify_eq.
    by rewrite app_nil_r.
  - cbn [index_loop] in Hloop. unfold mbind, W_bind, wbind in Hloop.
    rewrite (index_one_step _ _ _ _ Hdata) in Hloop. cbv zeta in Hloop.
    destruct (50 <=? cnt)%nat; [destruct (commit_raises _); [done|]|];
      unfold Return in Hloop; cbv beta iota in Hloop;
      apply IH in Hloop; rewrite Hloop, !upserts_app; cbn [upserts map];
      by rewrite ?app_nil_r, <- app_assoc.
Qed.

(** X12.  When the files of the entries to index can be read and
    [update_missing_indexes] returns, the documents it has handed to the
    writer are those of the entries whose number the search index does
    not hold, once each and in the order of the index, with the
    description as title; no entry already indexed is handed over. *)
Theorem update_missing_indexes_upserts
    (contents : Z → bytes) (self : list RFCCacheEntry) (stored : list Z)
    (tr : list call) :
  Forall (λ rfc, read_file (number rfc) = Return (contents (number rfc)))
         (missing self stored) →
  update_missing_indexes read_file commit_raises self stored [] = (Return tt, tr) →
  upserts tr
  = map (λ rfc, document_of (contents (number rfc)) rfc)
        (filter (λ rfc, number rfc ∉ stored) self)
  ∧ Forall (λ d, doc_number d ∉ stored) (upserts tr).
Proof.
  intros Hread Hrun.
  pose proof (missing_filter self stored) as Hmissing.
  assert (upserts tr = map (λ rfc, document_of (contents (number rfc)) rfc)
                           (missing self stored)) as Hups.
  { unfold update_missing_indexes in Hrun.
    unfold mbind, W_bind, wbind, do_call in Hrun. cbn [app] in Hrun.
    destruct (index_loop _ _ _ _ _) as [[e|r] tr1] eqn:Hloop; [done|].
    apply (index_loop_upserts contents) in Hloop; [|done].
    unfold final_commit, commit in Hrun.
    assert (tr = tr1 ++ [Commit]) as ->.
    { unfold Return, Raise in Hrun.
      destruct (commit_raises tr1); by simplify_eq/=. }
    rewrite upserts_app, Hloop. cbn. by rewrite app_nil_r. }
  split; [by rewrite Hups, Hmissing|].
  rewrite Hups, Hmissing. apply Forall_map, Forall_forall.
  intros rfc [Hrfc _]%list_elem_of_filter. exact Hrfc.
Qed.

(** X13.  When the search index holds the number of every entry, as it
    does right after a run that indexed them all, [update_missing_indexes]
    reads no file and hands over no document: it opens a writer and
    commits, and returns even if that commit raises [IndexingError]. *)
Theorem update_missing_indexes_nothing_to_do
    (self : list RFCCacheEntry) (stored : list Z) :
  Forall (λ rfc, number rfc ∈ stored) self →
  update_missing_indexes read_file commit_raises self stored []
  = (Return tt, [NewWriter; Commit]).
Proof.
  intros Hall. unfold update_missing_indexes.
  assert (missing self stored = []) as ->.
  { rewrite missing_filter. induction Hall as [|x self Hx _ IH]; [done|].
    rewrite filter_cons. by case_decide. }
  unfold mbind, W_bind, wbind, do_call. cbn [app index_loop]. unfold wret.
  unfold Return at 1 2. cbv beta iota.
  by rewrite final_commit_swallows.
Qed.

Lemma index_loop_app l1 l2 cnt tr :
  index_loop read_file commit_raises cnt (l1 ++ l2) tr
  = match index_loop read_file commit_raises cnt l1 tr with
    | (inr cnt', tr') => index_loop read_file commit_raises cnt' l2 tr'
    | (inl e, tr') => (Raise e, tr')
    end.
Proof.
  revert cnt tr. induction l1 as [|rfc l1 IH]; intros cnt tr; [done|].
  cbn [app index_loop]. unfold mbind, W_bind, wbind.
  destruct (index_one _ _ _ _ _) as [[e|cnt'] tr']; [done|]. apply IH.
Qed.

(** X14.  When the file of an entry to index cannot be read ([IOError]
    or [OSError]) and the files before it can, [update_missing_indexes]
    raises 'Error reading' for that entry and makes no further call: the
    documents handed over since the last commit of the loop, [k mod 51]
    of them for [k] entries before the failing one, are left without a
    commit. *)
Theorem update_missing_indexes_read_error
    (contents : Z → bytes) (self : list RFCCacheEntry) (stored : list Z)
    (before after : list RFCCacheEntry) (rfc : RFCCacheEntry) :
  (∀ tr, commit_raises tr = false) →
  missing self stored = before ++ rfc :: after →
  Forall (λ rfc, read_file (number rfc) = Return (contents (number rfc)))
         before →
  read_file (number rfc) = Raise IOError
  ∨ read_file (number rfc) = Raise OSError →
  ∃ tr,
    update_missing_indexes read_file commit_raises self stored []
    = (Raise (RFCCacheError (ErrorReading (number rfc))), tr)
    ∧ upserts tr
      = map (λ rfc, document_of (contents (number rfc)) rfc) before
    ∧ commits tr = (length before `div` 51)%nat.
Proof.
  intros Hcommit Hmissing Hread Hfail. unfold update_missing_indexes.
  rewrite Hmissing. unfold mbind, W_bind, wbind, do_call. cbn [app].
  unfold Return at 1. cbv beta iota. rewrite index_loop_app.
  destruct (index_loop_commits read_file commit_raises Hcommit before O [NewWriter])
    as (tr1 & Hloop & Hcommits); [|lia|].
  { eapply Forall_impl; [exact Hread|]. intros x Hx. cbn beta in *. eauto. }
  rewrite Hloop. unfold Return at 1. cbv beta iota.
  apply (index_loop_upserts contents) in Hloop; [|done].
  cbn [index_loop]. unfold mbind, W_bind, wbind, index_one.
  exists tr1. split; [|split].
  - by destruct Hfail as [-> | ->].
  - rewrite Hloop. by cbn.
  - rewrite Hcommits. by cbn.
Qed.

(** The loop when every commit raises: up to 50 documents it goes
    through; the commit after the 51st raises and ends it. *)
Lemma index_loop_failing_commit contents rfcs cnt tr :
  (∀ tr, commit_raises tr = true) →
  Forall (λ rfc, read_file (number rfc) = Return (contents (number rfc))) rfcs →
  (cnt ≤ 50)%nat →
  index_loop read_file commit_raises cnt rfcs tr
  = let docs l := map (λ rfc, UpdateDocument
                                (document_of (contents (number rfc)) rfc)) l in
    if (cnt + length rfcs <=? 50)%nat
    then (Return (cnt + length rfcs)%nat, tr ++ docs rfcs)
    else (Raise IndexingError,
          tr ++ docs (take (51 - cnt) rfcs) ++ [Commit]).
Proof.
  intros Hcommit Hread. revert cnt tr.
  induction Hread as [|rfc rfcs Hdata _ IH]; intros cnt tr Hcnt; cbv zeta.
  - cbn [index_loop length map]. rewrite Nat.add_0_r, app_nil_r.
    by destruct (Nat.leb_spec cnt 50); [|lia].
  - cbn [index_loop length]. unfold mbind, W_bind, wbind.
    rewrite (index_one_step _ _ _ _ Hdata). cbv zeta.
    destruct (Nat.leb_spec 50 cnt) as [Hge|Hlt].
    + rewrite Hcommit.
      destruct (Nat.leb_spec (cnt + S (length rfcs)) 50); [lia|].
      assert (cnt = 50%nat) as -> by lia. cbn [Nat.sub take map].
      by rewrite take_0, <- !app_assoc.
    + unfold Return at 1. cbv beta iota. rewrite IH by lia. cbv zeta.
      replace (S cnt + length rfcs)%nat with (cnt + S (length rfcs))%nat by lia.
      destruct (Nat.leb_spec (cnt + S (length rfcs)) 50).
      * cbn [map]. by rewrite <- app_assoc.
      * replace (51 - cnt)%nat with (S (51 - S cnt)) by lia.
        cbn [take map]. by rewrite <- !app_assoc.
Qed.

(** X15.  [IndexingError] is caught at the last commit only.  When every
    commit raises it and the files can be read, [update_missing_indexes]
    returns for up to 50 entries to index, and for 51 or more it raises
    [IndexingError] at the commit of the loop, after the 51st document,
    the entries after it never being handed over. *)
Theorem update_missing_indexes_commit_error
    (contents : Z → bytes) (self : list RFCCacheEntry) (stored : list Z) :
  (∀ tr, commit_raises tr = true) →
  Forall (λ rfc, read_file (number rfc) = Return (contents (number rfc)))
         (missing self stored) →
  ∃ tr,
    update_missing_indexes read_file commit_raises self stored []
    = (if (length (missing self stored) <=? 50)%nat
       then Return tt else Raise IndexingError, tr)
    ∧ upserts tr
      = map (λ rfc, document_of (contents (number rfc)) rfc)
            (take 51 (missing self stored)).
Proof.
  intros Hcommit Hread. unfold update_missing_indexes.
  unfold mbind, W_bind, wbind, do_call. cbn [app].
  unfold Return at 1. cbv beta iota.
  rewrite (index_loop_failing_commit contents) by (done || lia). cbv zeta.
  cbn [Nat.add Nat.sub].
  destruct (Nat.leb_spec (length (missing self stored)) 50) as [Hle|Hgt].
  - unfold Return at 1. cbv beta iota. rewrite final_commit_swallows.
    eexists. split; [done|].
    rewrite !upserts_app. cbn [upserts]. rewrite app_nil_r.
    rewrite take_ge by lia. cbn [app].
    induction (missing self stored) as [|x l IH]; [done|].
    cbn [map upserts]. f_equal. apply IH.
    + by apply Forall_cons in Hread as [_ ?].
    + cbn [length] in Hle. lia.
  - eexists. split; [done|].
    rewrite !upserts_app. cbn [upserts]. rewrite app_nil_r. cbn [app].
    clear. induction (take 51 (missing self stored)) as [|x l IH]; [done|].
    cbn [map upserts]. by f_equal.
Qed.
End Indexing.

Lemma update_missing_indexes_upserts_witness :
  let tr := (update_missing_indexes (all_but 0) (λ _, false)
               (entries_upto 3) [2] []).2 in
  upserts tr
  = [document_of (B "body") (plain_entry 1);
     document_of (B "body") (plain_entry 3)]
  ∧ Forall (λ d, doc_number d ∉ [2]) (upserts tr).
Proof.
  cbv zeta.
  destruct (update_missing_indexes_upserts (all_but 0) (λ _, false)
              (λ _, B "body") (entries_upto 3) [2]
              (update_missing_indexes (all_but 0) (λ _, false)
                 (entries_upto 3) [2] []).2) as [Hups Hnot].
  - rewrite missing_filter. unfold entries_upto. cbn [seq map].
    rewrite !filter_cons, filter_nil.
    repeat case_decide; repeat constructor.
  - vm_compute. reflexivity.
  - split; [|exact Hnot]. rewrite Hups. unfold entries_upto. cbn [seq map].
    rewrite !filter_cons, filter_nil.
    repeat case_decide; try reflexivity;
      exfalso; cbn in *; rewrite ?elem_of_cons, ?elem_of_nil in *; intuition lia.
Defined.

Lemma update_missing_indexes_nothing_to_do_witness :
  update_missing_indexes (λ _, Raise IOError) (λ _, true)
    (entries_upto 3) [3; 1; 2] []
  = (Return tt, [NewWriter; Commit]).
Proof.
  apply (update_missing_indexes_nothing_to_do (λ _, Raise IOError) (λ _, true)
           (entries_upto 3) [3; 1; 2]).
  unfold entries_upto. cbn [seq map].
  repeat constructor; cbn; rewrite !elem_of_cons; lia.
Defined.

Lemma update_missing_indexes_read_error_witness :
  ∃ tr,
    update_missing_indexes (all_but 3) (λ _, false) (entries_upto 4) [] []
    = (Raise (RFCCacheError (ErrorReading 3)), tr)
    ∧ upserts tr
      = [document_of (B "body") (plain_entry 1);
         document_of (B "body") (plain_entry 2)]
    ∧ commits tr = 0%nat.
Proof.
  apply (update_missing_indexes_read_error (all_but 3) (λ _, false)
           (λ _, B "body") (entries_upto 4) []
           [plain_entry 1; plain_entry 2] [plain_entry 4] (plain_entry 3)).
  - reflexivity.
  - vm_compute. reflexivity.
  - repeat constructor.
  - left. reflexivity.
Defined.

Lemma update_missing_indexes_commit_error_witness :
  ∃ tr,
    update_missing_indexes (all_but 0) (λ _, true) (entries_upto 60) [] []
    = (Raise IndexingError, tr)
    ∧ length (upserts tr) = 51%nat.
Proof.
  destruct (update_missing_indexes_commit_error (all_but 0) (λ _, true)
              (λ _, B "body") (entries_upto 60) [])
    as (tr & Hrun & Hups).
  - reflexivity.
  - rewrite missing_filter. apply Forall_forall. intros rfc Hrfc.
    apply list_elem_of_filter in Hrfc as [_ Hrfc].
    unfold entries_upto in Hrfc. apply list_elem_of_In, in_map_iff in Hrfc
      as (i & <- & Hi%in_seq).
    unfold all_but. cbn [number plain_entry].
    destruct (Z.eqb_spec (Z.of_nat i) 0); [lia|done].
  - exists tr. split.
    + rewrite Hrun. by vm_compute.
    + rewrite Hups, length_map, length_take. by vm_compute.
Defined.

(** ** Errors of [search]; [get_indexed] *)

Lemma collect_app self dedup l1 l2 rfcs results :
  collect self dedup (l1 ++ l2) rfcs results
  = match collect self dedup l1 rfcs results with
    | inr (rfcs', results') => collect self dedup l2 rfcs' results'
    | inl e => Raise e
    end.
Proof.
  revert rfcs results. induction l1 as [|n l1 IH]; intros rfcs results; [done|].
  cbn [app collect]. destruct (dedup && bool_decide (n ∈ rfcs)); [apply IH|].
  destruct (get_by_number self (Return n)); [done|apply IH].
Qed.

Lemma collect_returns self ns rfcs results :
  Forall (resolves self) ns →
  ∃ rfcs' results', collect self false ns rfcs results = Return (rfcs', results').
Proof.
  intros Hall. revert rfcs results.
  induction Hall as [|n ns [e He] _ IH]; intros rfcs results; [by eexists _, _|].
  cbn [collect andb]. rewrite He. apply IH.
Qed.

(** X16.  [search] gives up at the first title hit [get_by_number] does
    not return an entry for, and raises what [get_by_number] raised:
    with a search index that holds numbers the loaded index does not
    serve (it is empty, or older, or the number is in [RFC_SKIPPED]) a
    query that hits such a number returns nothing at all. *)
Theorem search_raises_on_unresolved_hit
    (hits : field → bytes → list Z) (self : list RFCCacheEntry)
    (terms : list bytes) (bodysearch : bool)
    (before after : list Z) (n : Z) (e : exn) :
  hits Title (Py.join (B " ") (map Py.lower terms)) = before ++ n :: after →
  Forall (resolves self) before →
  get_by_number self (Return n) = Raise e →
  search hits self terms bodysearch = Raise e.
Proof.
  intros Hhits Hbefore Hn. unfold search. rewrite Hhits, collect_app.
  destruct (collect_returns self before [] [] Hbefore) as (rfcs & results & ->).
  unfold Return. cbv beta iota. cbn [collect andb]. by rewrite Hn.
Qed.

Lemma search_raises_on_unresolved_hit_witness :
  search example_hits (entries_upto 5) [B "Example"; B "TITLE"] true
  = Raise (RFCCacheError (NotYetCached 15 5)).
Proof.
  apply (search_raises_on_unresolved_hit example_hits (entries_upto 5)
           [B "Example"; B "TITLE"] true [] [1] 15).
  - vm_compute. reflexivity.
  - constructor.
  - vm_compute. reflexivity.
Defined.

(** X17.  [get_indexed] returns the numbers the search index lists, each
    as many times as it is listed, in ascending order. *)
Theorem get_indexed_sorted (stored : list Z) :
  get_indexed stored ≡ₚ stored ∧ StronglySorted Z.le (get_indexed stored).
Proof.
  unfold get_indexed. split.
  - apply (list_sort_perm (A:=Z) id).
  - pose proof (sorted_keys (A:=Z) id _ (list_sort_sorted id stored)) as H.
    by rewrite map_id in H.
Qed.

(** ** [__parse_flags__] *)

Section StripFacts.
Context {C : Type} (p : C → bool).

Lemma lstrip_elem_of s x : x ∈ Py.lstrip p s → x ∈ s.
Proof.
  induction s as [|c s IH]; [done|]. cbn [Py.lstrip].
  destruct (p c); [|done]. intros H. apply elem_of_cons. right. by apply IH.
Qed.

Lemma rstrip_elem_of s x : x ∈ Py.rstrip p s → x ∈ s.
Proof.
  unfold Py.rstrip. intros H.
  apply list_elem_of_In, in_rev, list_elem_of_In, lstrip_elem_of in H.
  by apply list_elem_of_In, in_rev, list_elem_of_In in H.
Qed.

Lemma strip_elem_of s x : x ∈ Py.strip p s → x ∈ s.
Proof. unfold Py.strip. by intros H%rstrip_elem_of%lstrip_elem_of. Qed.

Lemma lstrip_nil s : Py.lstrip p s = [] → Forall (λ c, p c = true) s.
Proof.
  induction s as [|c s IH]; [done|]. cbn [Py.lstrip].
  destruct (p c) eqn:Hc; [|done]. intros H. constructor; [done|by apply IH].
Qed.

Lemma lstrip_head_kept s c s' : Py.lstrip p s = c :: s' → p c = false.
Proof.
  induction s as [|x s IH]; [done|]. cbn [Py.lstrip].
  destruct (p x) eqn:Hx; [done|]. by intros [= <- _].
Qed.

(** Stripping leaves nothing only of a string of stripped characters. *)
Lemma strip_nil s : Py.strip p s = [] → Forall (λ c, p c = true) s.
Proof.
  unfold Py.strip, Py.rstrip. intros H.
  apply (f_equal (@rev C)) in H. rewrite rev_involutive in H. cbn [rev] in H.
  apply lstrip_nil in H. apply lstrip_nil.
  destruct (Py.lstrip p s) as [|c s'] eqn:Hl; [done|].
  apply lstrip_head_kept in Hl.
  rewrite Forall_forall in H. specialize (H c). cbn beta in H.
  rewrite H in Hl; [done|]. apply list_elem_of_In. rewrite <- in_rev. by left.
Qed.

Lemma lstrip_app_stop k c v :
  p c = false → Py.lstrip p (k ++ c :: v) = Py.lstrip p k ++ c :: v.
Proof.
  intros Hc. induction k as [|x k IH]; cbn [app Py.lstrip].
  - by rewrite Hc.
  - by destruct (p x).
Qed.

(** A string that neither starts nor ends with a stripped character is
    its own [strip]. *)
Lemma strip_id a mid z :
  p a = false → p z = false →
  Py.strip p (a :: mid ++ [z]) = a :: mid ++ [z].
Proof.
  intros Ha Hz. unfold Py.strip, Py.rstrip. cbn [Py.lstrip]. rewrite Ha.
  change (a :: mid ++ [z]) with ((a :: mid) ++ [z]).
  generalize (a :: mid). intros l.
  rewrite rev_unit. cbn [Py.lstrip]. rewrite Hz. cbn [rev].
  by rewrite rev_involutive.
Qed.

Lemma split1_no_separator s :
  Forall (λ c, p c = false) s → Py.split1 p s = [s].
Proof.
  induction 1 as [|c s Hc _ IH]; [done|]. cbn [Py.split1].
  by rewrite Hc, IH.
Qed.

Lemma split1_at a c b :
  Forall (λ c, p c = false) a → p c = true →
  Py.split1 p (a ++ c :: b) = [a; b].
Proof.
  intros Ha Hc. induction Ha as [|x a Hx _ IH]; cbn [app Py.split1].
  - by rewrite Hc.
  - by rewrite Hx, IH.
Qed.

Lemma split_elem_of s f x : f ∈ Py.split p s → x ∈ f → x ∈ s.
Proof.
  revert f. induction s as [|c s IH]; intros f Hf Hx.
  - cbn in Hf. apply list_elem_of_singleton in Hf as ->. done.
  - cbn [Py.split] in Hf. destruct (p c).
    + apply elem_of_cons in Hf as [->|Hf]; [by apply elem_of_nil in Hx|].
      apply elem_of_cons. right. by eapply IH.
    + destruct (Py.split p s) as [|f0 fs] eqn:Hs.
      * apply list_elem_of_singleton in Hf as ->. apply list_elem_of_singleton in Hx as ->.
        by left.
      * apply elem_of_cons in Hf as [->|Hf].
        -- apply elem_of_cons in Hx as [->|Hx]; [by left|].
           apply elem_of_cons. right. apply (IH f0); [by left|done].
        -- apply elem_of_cons. right. apply (IH f); [by right|done].
Qed.

Lemma split_last_separator s c :
  Forall (λ c, p c = false) s → p c = true →
  Py.split p (s ++ [c]) = [s; []].
Proof.
  intros Hs Hc. induction Hs as [|x s Hx _ IH]; cbn [app Py.split].
  - by rewrite Hc.
  - by rewrite Hx, IH.
Qed.
End StripFacts.

Lemma parse_flag_no_colon fl v :
  Forall (λ c, c ≠ 58%N) v → parse_flag fl v = fl.
Proof.
  intros Hv. unfold parse_flag. case_bool_decide; [done|].
  rewrite split1_no_separator; [done|].
  eapply Forall_impl; [exact Hv|]. intros c Hc. by apply N.eqb_neq.
Qed.

(** X18.  A flags group with no colon in it gives no flag: each
    fragment fails to unpack into a key and a value and is passed
    over.  '(Informational)' is such a group. *)
Theorem parse_flags_without_colon (value : ustring) :
  Forall (λ c, c ≠ 58%N) value → parse_flags value = ∅.
Proof.
  intros Hvalue. unfold parse_flags.
  assert (Forall (Forall (λ c, c ≠ 58%N))
            (map (Py.lstrip (λ c, (c =? 32) || (c =? 40))%N)
                 (Py.split (N.eqb 41) (Py.strip Py.uisspace value)))) as Hfrags.
  { apply Forall_map, Forall_forall. intros f Hf. apply Forall_forall.
    intros x Hx%lstrip_elem_of. rewrite Forall_forall in Hvalue.
    apply Hvalue. eapply strip_elem_of, split_elem_of; done. }
  revert Hfrags. generalize (∅ : gmap ustring ustring).
  generalize (map (Py.lstrip (λ c, (c =? 32) || (c =? 40))%N)
                  (Py.split (N.eqb 41) (Py.strip Py.uisspace value))).
  intros frags fl Hfrags. revert fl.
  induction Hfrags as [|f fs Hf _ IH]; intros fl; [done|].
  cbn [fold_left]. rewrite parse_flag_no_colon by done. apply IH.
Qed.

Lemma parse_flags_without_colon_witness :
  parse_flags (u "(Informational)") = ∅.
Proof.
  apply (parse_flags_without_colon (u "(Informational)")).
  vm_compute. repeat constructor; discriminate.
Defined.

(** X19.  A flags group of one pair, ['(' key ':' value ')'], with no
    [')'] inside and no [':'] in the key, gives one flag: the key
    without its leading blanks and ['('] and without blanks around it,
    the value without blanks around it. *)
Theorem parse_flags_single_pair (k v : ustring) :
  Forall (λ c, c ≠ 41%N ∧ c ≠ 58%N) k →
  Forall (λ c, c ≠ 41%N) v →
  parse_flags ([40%N] ++ k ++ [58%N] ++ v ++ [41%N])
  = {[ Py.strip Py.uisspace (Py.lstrip (λ c, (c =? 32) || (c =? 40))%N k)
       := Py.strip Py.uisspace v ]}.
Proof.
  intros Hk Hv. unfold parse_flags.
  set (paren := (λ c, (c =? 32) || (c =? 40))%N).
  replace ([40%N] ++ k ++ [58%N] ++ v ++ [41%N])
    with (40%N :: (k ++ 58%N :: v) ++ [41%N])
    by (cbn [app]; by rewrite <- app_assoc).
  rewrite strip_id by done.
  change (40%N :: (k ++ 58%N :: v) ++ [41%N])
    with ((40%N :: k ++ 58%N :: v) ++ [41%N]).
  rewrite split_last_separator; [|
    |done].
  2: { constructor; [done|]. apply Forall_app. split.
       - eapply Forall_impl; [exact Hk|]. intros c [Hc _]. by apply N.eqb_neq.
       - constructor; [done|].
         eapply Forall_impl; [exact Hv|]. intros c Hc. by apply N.eqb_neq. }
  cbn [map fold_left Py.lstrip]. change (paren 40%N) with true. cbv iota.
  rewrite (lstrip_app_stop paren) by done.
  assert (parse_flag (parse_flag ∅ (Py.lstrip paren k ++ 58%N :: v)) []
          = parse_flag ∅ (Py.lstrip paren k ++ 58%N :: v)) as -> by done.
  unfold parse_flag. rewrite bool_decide_eq_false_2.
  - rewrite split1_at; [done| |done].
    apply Forall_forall. intros c Hc%lstrip_elem_of.
    rewrite Forall_forall in Hk. destruct (Hk c Hc) as [_ Hne].
    by apply N.eqb_neq.
  - intros Hnil%strip_nil. rewrite Forall_forall in Hnil.
    specialize (Hnil 58%N). cbn beta in Hnil.
    assert (Py.uisspace 58 = true); [|done].
    apply Hnil, elem_of_app. right. by left.
Qed.

Lemma parse_flags_single_pair_witness :
  parse_flags (u "(Status: PROPOSED STANDARD)")
  = {[ u "Status" := u "PROPOSED STANDARD" ]}.
Proof.
  assert (parse_flags ([40%N] ++ u "Status" ++ [58%N] ++ u " PROPOSED STANDARD" ++ [41%N])
          = {[ Py.strip Py.uisspace (Py.lstrip (λ c, (c =? 32) || (c =? 40))%N (u "Status"))
               := Py.strip Py.uisspace (u " PROPOSED STANDARD") ]}) as H.
  { apply (parse_flags_single_pair (u "Status") (u " PROPOSED STANDARD")).
    - vm_compute. repeat constructor; discriminate.
    - vm_compute. repeat constructor; discriminate. }
  exact H.
Defined.

(** ** What the groups of a match hold *)

Section RunSound.
Context {C : Type} (code_of : C → N) (whole : list C).
Context (Q : string → list C → Prop).

(** A successful run has consumed a string of the pattern, and has
    given each group a string of its subpattern. *)
Lemma run_sound r :
  groups_ok code_of Q r →
  ∀ s g k res,
    groups_hold Q g →
    run code_of whole r s g k = Some res →
    ∃ w s' g', s = w ++ s' ∧ lang code_of r w ∧ groups_hold Q g'
               ∧ k s' g' = Some res.
Proof.
  induction r as [| |p|r1 IH1 r2 IH2|r IH|name r IH]; intros Hok s g k res Hg Hrun.
  - cbn [run] in Hrun. destruct (_ =? _)%nat; [|done].
    exists [], s, g. repeat split; [constructor|done|done].
  - cbn [run] in Hrun. exists [], s, g.
    repeat split; [constructor|done|].
    destruct s as [|c [|c' s]]; [done| |done].
    by destruct (code_of c =? 10)%N.
  - cbn [run] in Hrun. destruct s as [|c s]; [done|].
    destruct (p (code_of c)) eqn:Hp; [|done].
    exists [c], s, g. repeat split; [by constructor|done|done].
  - destruct Hok as [Hok1 Hok2]. rewrite run_cat in Hrun.
    apply IH1 in Hrun as (w1 & s1 & g1 & -> & Hw1 & Hg1 & Hrun); [|done|done].
    apply IH2 in Hrun as (w2 & s2 & g2 & -> & Hw2 & Hg2 & Hrun); [|done|done].
    exists (w1 ++ w2), s2, g2. rewrite <- app_assoc.
    repeat split; [by constructor|done|done].
  - cbn [groups_ok] in Hok. cbn [run] in Hrun.
    match type of Hrun with ?f (length s) s g = _ => set (loop := f) in Hrun end.
    assert (∀ fuel s g, groups_hold Q g → loop fuel s g = Some res →
              ∃ w s' g', s = w ++ s' ∧ lang code_of (Star r) w ∧ groups_hold Q g'
                         ∧ k s' g' = Some res) as Hloop.
    { clear s g Hg Hrun. induction fuel as [|fuel IHfuel]; intros s g Hg Hrun.
      - cbn in Hrun. exists [], s, g. repeat split; [constructor|done|done].
      - cbn in Hrun.
        destruct (run code_of whole r s g _) as [res'|] eqn:Hinner.
        + injection Hrun as ->.
          apply IH in Hinner as (w1 & s1 & g1 & -> & Hw1 & Hg1 & Hk); [|done|done].
          match type of Hk with
          | (if ?c then _ else _) = _ => destruct c; [|done]
          end.
          apply IHfuel in Hk as (w2 & s2 & g2 & -> & Hw2 & Hg2 & Hk); [|done].
          exists (w1 ++ w2), s2, g2. rewrite <- app_assoc.
          repeat split; [by constructor|done|done].
        + exists [], s, g. repeat split; [constructor|done|done]. }
    by eapply Hloop.
  - destruct Hok as [Hname Hok]. rewrite run_grp in Hrun.
    apply IH in Hrun as (w & s' & g' & -> & Hw & Hg' & Hrun); [|done|done].
    exists w, s', ((name, w) :: g').
    rewrite take_app_length' in Hrun.
    repeat split; [by constructor| |done].
    constructor; [by apply Hname|done].
Qed.

End RunSound.

(** The groups of a match hold strings of their subpatterns. *)
Lemma rmatch_groups {C} (code_of : C → N) Q r s m :
  groups_ok code_of Q r →
  rmatch code_of r s = Some m →
  groups_hold Q m.
Proof.
  intros Hok Hm. unfold rmatch in Hm.
  apply (run_sound code_of s Q r Hok) in Hm as (w & s' & g' & _ & _ & Hg & Hk);
    [|constructor].
  by injection Hk as <-.
Qed.

Lemma group_holds {C} (Q : string → list C → Prop) (m : groups) name v :
  groups_hold Q m → group m name = Some v → Q name v.
Proof.
  intros Hm. induction Hm as [|[n w] m Hn _ IH]; [done|]. cbn [group].
  destruct (String.eqb_spec n name) as [->|]; [|done]. by intros [= <-].
Qed.

Lemma lang_lit (c : ascii) (w : ustring) :
  lang id (Lit c) w → w = [code c].
Proof.
  unfold Lit. inversion 1 as [| |p x Hx| | | |]; subst.
  apply N.eqb_eq in Hx. by rewrite Hx.
Qed.

Lemma description_groups_ok :
  groups_ok id description_group RE_RFC_DESCRIPTION.
Proof.
  unfold RE_RFC_DESCRIPTION. cbn [Seq fold_left groups_ok Plus Lit Digit Dot].
  repeat split.
  - intros w Hw. unfold description_group. cbn [String.eqb Ascii.eqb Bool.eqb].
    inversion Hw as [| | |r1 r2 w1 w2 _ Hdot| | |]; subst.
    apply (lang_lit ".") in Hdot as ->. by exists w1.
  - intros w Hw. unfold description_group. cbn [String.eqb Ascii.eqb Bool.eqb].
    inversion Hw as [| | |r1 r2 w12 w3 Hw12 Hclose| | |]; subst.
    inversion Hw12 as [| | |r1 r2 w1 w2 Hopen _| | |]; subst.
    apply (lang_lit "(") in Hopen as ->. apply (lang_lit ")") in Hclose as ->.
    by exists w2.
Qed.

Lemma find_month_range names m s m' rest :
  Strptime.find_month names m s = Some (m', rest) →
  m ≤ m' < m + Z.of_nat (length names).
Proof.
  revert m. induction names as [|name names IH]; intros m H; [done|].
  cbn [Strptime.find_month] in H. cbn [length].
  destruct (Py.startswith _ _ _).
  - injection H as <- _. lia.
  - apply IH in H. lia.
Qed.

Lemma four_digits_value d1 d2 d3 d4 :
  forallb Py.isdigit [d1; d2; d3; d4] = true →
  0 ≤ Py.digits_value [d1; d2; d3; d4] ≤ 9999.
Proof.
  cbn [forallb]. unfold Py.isdigit, Py.digits_value. cbn [fold_left].
  rewrite !andb_true_iff, !N.leb_le. lia.
Qed.

Lemma month_year_date s d :
  Strptime.month_year s = Return d →
  day d = 1 ∧ 1 ≤ month d ≤ 12 ∧ 1 ≤ year d ≤ 9999.
Proof.
  unfold Strptime.month_year, Return, Raise. intros H.
  destruct (Strptime.find_month _ _ _) as [[m rest]|] eqn:Hm; [|done].
  apply find_month_range in Hm. cbn in Hm.
  destruct rest as [|c rest]; [done|]. destruct (Py.isspace c); [|done].
  destruct (Py.lstrip _ _) as [|d1 [|d2 [|d3 [|d4 [|]]]]]; try done.
  destruct (forallb _ _) eqn:Hdigits; [|done].
  apply four_digits_value in Hdigits.
  destruct (Z.leb_spec 1 (Py.digits_value [d1; d2; d3; d4])); [|done].
  injection H as <-. cbn [day month year]. lia.
Qed.

(** X20.  An entry the constructor returns has the number given, no
    authors, and the description decoded from UTF-8.  Either it has no
    date, and then the title is 'title not parsed' and there are no
    flags; or its date is the first day of a month of a year from 1 to
    9999, and then its title ends with a period: the period before the
    date belongs to the title. *)
Theorem new_entry_fields (n : Z) (d : bytes) (e : RFCCacheEntry) :
  new_entry n (Some d) = Return e →
  number e = n
  ∧ authors e = []
  ∧ Utf8.decode d = Return (description e)
  ∧ match date e with
    | None => title e = u "title not parsed" ∧ flags e = ∅
    | Some dt =>
        day dt = 1 ∧ 1 ≤ month dt ≤ 12 ∧ 1 ≤ year dt ≤ 9999
        ∧ ∃ t, title e = t ++ [46%N]
    end.
Proof.
  unfold new_entry, Return, Raise. intros H.
  destruct (Utf8.decode d) as [|ud]; [done|].
  destruct (rmatch id RE_RFC_DESCRIPTION ud) as [m|] eqn:Hm;
    [|by injection H as <-].
  destruct (group m "title") as [t|] eqn:Ht; [|by injection H as <-].
  destruct (group m "date") as [dt|]; [|by injection H as <-].
  destruct (group m "flags"); [|by injection H as <-].
  destruct (Strptime.month_year dt) as [|when] eqn:Hwhen; [done|].
  injection H as <-. cbn [number authors description date title].
  apply month_year_date in Hwhen as (? & ? & ?).
  repeat split; try done; try lia.
  pose proof (rmatch_groups _ _ _ _ _ description_groups_ok Hm) as Hgroups.
  apply (group_holds _ _ _ _ Hgroups Ht).
Qed.

Lemma new_entry_fields_witness :
  ∃ e, new_entry 1000 (Some (B "An Example Protocol. June 2020. (Informational)"))
       = Return e
       ∧ number e = 1000
       ∧ match date e with
         | None => title e = u "title not parsed" ∧ flags e = ∅
         | Some dt =>
             day dt = 1 ∧ 1 ≤ month dt ≤ 12 ∧ 1 ≤ year dt ≤ 9999
             ∧ ∃ t, title e = t ++ [46%N]
         end.
Proof.
  eexists. split; [vm_compute; reflexivity|].
  match goal with
  | |- number ?e = _ ∧ _ =>
      destruct (new_entry_fields 1000
                  (B "An Example Protocol. June 2020. (Informational)") e)
        as (Hn & _ & _ & Hd); [vm_compute; reflexivity|]
  end.
  split; [exact Hn|exact Hd].
Defined.

(** ** File names and URLs *)

Lemma value_of_digits n : value_of (digits_of n) = Some n.
Proof.
  unfold value_of, digits_of.
  rewrite string_of_list_ascii_of_string, NilEmpty.usu. cbn [option_map].
  by rewrite DecimalN.Unsigned.of_to.
Qed.

Lemma value_of_zero s : value_of ("0"%char :: s) = value_of s.
Proof.
  unfold value_of. cbn [string_of_list_ascii NilEmpty.uint_of_string].
  by destruct (NilEmpty.uint_of_string _).
Qed.

Lemma value_of_zeros k s : value_of (repeat "0"%char k ++ s) = value_of s.
Proof.
  induction k as [|k IH]; [done|]. cbn [repeat app]. by rewrite value_of_zero.
Qed.

Lemma value_of_minus s : value_of ("-"%char :: s) = None.
Proof.
  unfold value_of. cbn [string_of_list_ascii NilEmpty.uint_of_string].
  by destruct (NilEmpty.uint_of_string _).
Qed.

Lemma format_int_inj a b : format_int a = format_int b → a = b.
Proof.
  unfold format_int. intros H.
  destruct (Z.ltb_spec a 0), (Z.ltb_spec b 0).
  - injection H as H. apply (f_equal value_of) in H.
    rewrite !value_of_digits in H. injection H as H. lia.
  - apply (f_equal value_of) in H.
    by rewrite value_of_minus, value_of_digits in H.
  - apply (f_equal value_of) in H.
    by rewrite value_of_minus, value_of_digits in H.
  - apply (f_equal value_of) in H.
    rewrite !value_of_digits in H. injection H as H. lia.
Qed.

Lemma format_04d_inj a b : format_04d a = format_04d b → a = b.
Proof.
  unfold format_04d. intros H.
  destruct (Z.ltb_spec a 0), (Z.ltb_spec b 0); cbn [app] in H.
  - injection H as H. apply (f_equal value_of) in H.
    rewrite !value_of_zeros, !value_of_digits in H. injection H as H. lia.
  - apply (f_equal value_of) in H.
    by rewrite value_of_minus, value_of_zeros, value_of_digits in H.
  - apply (f_equal value_of) in H.
    by rewrite value_of_minus, value_of_zeros, value_of_digits in H.
  - apply (f_equal value_of) in H.
    rewrite !value_of_zeros, !value_of_digits in H. injection H as H. lia.
Qed.

(** X21.  Two entries with the same file name have the same number, and
    so have two entries with the same download URL: no two documents
    share a file of the cache or a URL. *)
Theorem filename_and_url_tell_numbers_apart (a b : RFCCacheEntry) :
  filename a = filename b ∨ rfc_download_url a = rfc_download_url b →
  number a = number b.
Proof.
  intros [H|H].
  - unfold filename in H. apply app_inv_head, app_inv_tail in H.
    by apply format_int_inj.
  - unfold rfc_download_url in H.
    apply app_inv_head, app_inv_head, app_inv_tail in H.
    by apply format_04d_inj.
Qed.

Lemma filename_and_url_tell_numbers_apart_witness :
  filename (plain_entry 7) = B "rfc7.txt"
  ∧ rfc_download_url seventh_entry = B "http://www.ietf.org/rfc/rfc0007.txt"
  ∧ number (plain_entry 7) = number seventh_entry.
Proof.
  split; [reflexivity|]. split; [reflexivity|].
  apply (filename_and_url_tell_numbers_apart (plain_entry 7) seventh_entry).
  left. reflexivity.
Defined.

Lemma format_04d_sign z :
  ∃ sign, format_int z = sign ++ digits_of (Z.to_N (Z.abs z))
          ∧ format_04d z
            = sign ++ repeat "0"%char
                        (4 - length sign - length (digits_of (Z.to_N (Z.abs z))))
              ++ digits_of (Z.to_N (Z.abs z)).
Proof.
  unfold format_int, format_04d. destruct (Z.ltb_spec z 0).
  - exists ["-"%char]. replace (Z.abs z) with (- z) by lia. done.
  - exists []. replace (Z.abs z) with z by lia. done.
Qed.

(** X22.  The file of the cache is named after the number as it is
    written, the URL after the number filled with zeros to four
    characters: the URL ends with the file name exactly for the numbers
    written with four characters or more, and below 1000 the two names
    differ. *)
Theorem url_has_filename_from_four_characters (rfc : RFCCacheEntry) :
  rfc_download_url rfc = RFC_BASE_URL ++ filename rfc
  ↔ (4 ≤ length (format_int (number rfc)))%nat.
Proof.
  unfold rfc_download_url, filename.
  destruct (format_04d_sign (number rfc)) as (sign & -> & ->).
  set (ds := digits_of _). rewrite !length_app. split.
  - intros H%app_inv_head%app_inv_head%app_inv_tail%app_inv_head.
    apply (f_equal length) in H. rewrite length_app, repeat_length in H. lia.
  - intros H. replace (4 - length sign - length ds)%nat with 0%nat by lia.
    done.
Qed.

Lemma url_has_filename_from_four_characters_witness :
  rfc_download_url (plain_entry 1000) = RFC_BASE_URL ++ filename (plain_entry 1000)
  ∧ rfc_download_url (plain_entry 42) ≠ RFC_BASE_URL ++ filename (plain_entry 42).
Proof.
  split.
  - apply (url_has_filename_from_four_characters (plain_entry 1000)).
    vm_compute. lia.
  - intros H. apply (url_has_filename_from_four_characters (plain_entry 42)) in H.
    vm_compute in H. lia.
Defined.

Lemma path_join_files cachedir rfc :
  path_join cachedir [B "files"; filename rfc]
  = cachedir
    ++ match last cachedir with
       | None => []
       | Some c => if Ascii.eqb c "/" then [] else B "/"
       end
    ++ B "files/" ++ filename rfc.
Proof.
  unfold path_join. cbn [fold_left].
  change (Py.startswith Ascii.eqb (B "files") (B "/")) with false. cbv iota.
  change (Py.startswith Ascii.eqb (filename rfc) (B "/")) with false.
  destruct cachedir as [|c0 l _] using rev_ind; [reflexivity|].
  rewrite last_snoc.
  match goal with
  | |- context [if ?c then (l ++ [c0]) ++ B "files" else _] =>
      assert (c = Ascii.eqb c0 "/") as ->
  end.
  { case_bool_decide as Hnil; [by destruct l|].
    rewrite rev_app_distr. cbn [rev app orb Py.startswith B list_ascii_of_string].
    destruct (rev l); cbn [Py.startswith]; by rewrite andb_true_r. }
  destruct (Ascii.eqb c0 "/").
  - case_bool_decide as Hnil; [by destruct l|].
    rewrite rev_app_distr.
    cbn [orb B list_ascii_of_string rev app Py.startswith Ascii.eqb Bool.eqb andb].
    by rewrite <- !app_assoc.
  - case_bool_decide as Hnil; [by destruct l|].
    rewrite (app_assoc (l ++ [c0])), rev_app_distr.
    cbn [orb B list_ascii_of_string rev app Py.startswith Ascii.eqb Bool.eqb andb].
    by rewrite <- !app_assoc.
Qed.

(** X23.  The file of an entry is in the [files] directory of the cache
    directory, under the entry's file name: the path is the cache
    directory, then a slash when the directory's last character is not
    one and nothing when it is or when the directory is empty, then
    [files/rfcN.txt], all decoded as UTF-8.  The byte strings joined
    for entries with different numbers differ. *)
Theorem entry_path_in_cache (cachedir : bytes) (a b : RFCCacheEntry) :
  (∀ rfc,
     entry_path cachedir rfc
     = Utf8.decode
         (cachedir
          ++ match last cachedir with
             | None => []
             | Some c => if Ascii.eqb c "/" then [] else B "/"
             end
          ++ B "files/" ++ filename rfc))
  ∧ (path_join cachedir [B "files"; filename a]
     = path_join cachedir [B "files"; filename b] → number a = number b).
Proof.
  split.
  - intros rfc. unfold entry_path. by rewrite path_join_files.
  - rewrite !path_join_files.
    intros H%app_inv_head%app_inv_head%app_inv_head.
    unfold filename in H. apply app_inv_head, app_inv_tail in H.
    by apply format_int_inj.
Qed.

Lemma entry_path_in_cache_witness :
  entry_path (B "/var/cache/rtfm") (plain_entry 7)
  = Return (u "/var/cache/rtfm/files/rfc7.txt")
  ∧ entry_path (B "/var/cache/rtfm/") (plain_entry 7)
    = Return (u "/var/cache/rtfm/files/rfc7.txt")
  ∧ entry_path [] (plain_entry 7) = Return (u "files/rfc7.txt").
Proof.
  split; [|split].
  - destruct (entry_path_in_cache (B "/var/cache/rtfm")
                (plain_entry 7) (plain_entry 7)) as [H _].
    rewrite H. vm_compute. reflexivity.
  - destruct (entry_path_in_cache (B "/var/cache/rtfm/")
                (plain_entry 7) (plain_entry 7)) as [H _].
    rewrite H. vm_compute. reflexivity.
  - destruct (entry_path_in_cache [] (plain_entry 7) (plain_entry 7)) as [H _].
    rewrite H. vm_compute. reflexivity.
Defined.

(** ** Content hits that are title hits *)

Lemma collect_title_numbers self ns rfcs results rfcs' results' :
  collect self false ns rfcs results = Return (rfcs', results') →
  rfcs' = rfcs ++ ns.
Proof.
  revert rfcs results. induction ns as [|n ns IH]; intros rfcs results H.
  - cbn in H. unfold Return in H. simplify_eq. by rewrite app_nil_r.
  - cbn [collect andb] in H. destruct (get_by_number self (Return n)); [done|].
    apply IH in H. by rewrite H, <- app_assoc.
Qed.

Lemma collect_all_seen self ns rfcs results :
  Forall (λ n, n ∈ rfcs) ns →
  collect self true ns rfcs results = Return (rfcs, results).
Proof.
  induction 1 as [|n ns Hn _ IH]; [done|]. cbn [collect andb].
  by rewrite bool_decide_eq_true_2.
Qed.

(** X24.  A content hit that is also a title hit is passed over before
    [get_by_number] is asked: when every content hit is among the title
    hits, [search] with [bodysearch] does what it does without, entries
    and errors alike. *)
Theorem search_body_hits_already_seen
    (hits : field → bytes → list Z) (self : list RFCCacheEntry)
    (terms : list bytes) :
  Forall (λ n, n ∈ hits Title (Py.join (B " ") (map Py.lower terms)))
         (hits Content (Py.join (B " ") (map Py.lower terms))) →
  search hits self terms true = search hits self terms false.
Proof.
  intros Hseen. unfold search.
  destruct (collect self false _ [] []) as [e|[rfcs results]] eqn:Htitle; [done|].
  apply collect_title_numbers in Htitle. cbn [app] in Htitle. subst rfcs.
  by rewrite collect_all_seen.
Qed.

Lemma search_body_hits_already_seen_witness :
  search (λ f q, match f with Title => [3; 1] | Content => [1; 3; 1] end)
    (entries_upto 5) [B "x"] true
  = search (λ f q, match f with Title => [3; 1] | Content => [1; 3; 1] end)
      (entries_upto 5) [B "x"] false.
Proof.
  apply (search_body_hits_already_seen
           (λ f q, match f with Title => [3; 1] | Content => [1; 3; 1] end)
           (entries_upto 5) [B "x"]).
  repeat constructor; cbn; rewrite !elem_of_cons; lia.
Defined.
